(** * IoT soil dashboard: irrigation control and crop suitability

    A shallow embedding of the decision logic of the dashboard's API routes:

    - [app/api/motor/auto-control/route.ts]: [determineMotorAction],
      [generateAutoControlReason] and the [POST] handler;
    - [app/api/motor/route.ts]: the [POST] handler of the manual toggle;
    - the crop recommendation route: [calculateParameterScore],
      [calculateCropSuitability], the recommendation texts and
      [generateCropRecommendations].

    JavaScript numbers are modelled as exact rationals extended with the two
    infinities and NaN.  The rounding of binary floating point and the sign
    of zero are not modelled.  The tables of the database are lists, newest
    row first; the [id] and [created_at] columns are left to the position in
    the list.  [simulateMotorCommand] only logs and waits, and is left out,
    as are the [GET] handlers. *)

From Stdlib Require Import QArith Qabs Qround Qminmax ZArith Lia Lqa.
From Stdlib Require Import List String Bool Sorted Permutation.
Import ListNotations.

Local Open Scope Q_scope.

(** ** JavaScript numbers *)

Module JS.

Inductive number : Type :=
| Num (q : Q)
| PInf
| NInf
| NaN.

Definition Qltb (a b : Q) : bool := negb (Qle_bool b a).

(** The sign of a rational: -1, 0 or 1. *)
Definition Qsgn (a : Q) : Z := Z.sgn (Qnum a).

Definition inf_of_sign (s : Z) : number :=
  match s with
  | Z0 => NaN
  | Zpos _ => PInf
  | Zneg _ => NInf
  end.

Definition sign (x : number) : Z :=
  match x with
  | Num q => Qsgn q
  | PInf => 1%Z
  | NInf => (-1)%Z
  | NaN => 0%Z
  end.

Definition neg (x : number) : number :=
  match x with
  | Num q => Num (- q)
  | PInf => NInf
  | NInf => PInf
  | NaN => NaN
  end.

Definition add (x y : number) : number :=
  match x, y with
  | NaN, _ | _, NaN => NaN
  | Num a, Num b => Num (a + b)
  | PInf, NInf | NInf, PInf => NaN
  | PInf, _ | _, PInf => PInf
  | NInf, _ | _, NInf => NInf
  end.

Definition sub (x y : number) : number := add x (neg y).

Definition mul (x y : number) : number :=
  match x, y with
  | NaN, _ | _, NaN => NaN
  | Num a, Num b => Num (a * b)
  | _, _ => inf_of_sign (sign x * sign y)
  end.

(** [x / y]: a finite number over zero is an infinity of the sign of the
    numerator, and [0 / 0] is NaN. *)
Definition div (x y : number) : number :=
  match x, y with
  | NaN, _ | _, NaN => NaN
  | Num a, Num b =>
      if Qeq_bool b 0 then inf_of_sign (Qsgn a) else Num (a / b)
  | Num _, _ => Num 0
  | _, Num b => inf_of_sign (sign x * (if Qltb b 0 then -1 else 1))
  | _, _ => NaN
  end.

(** Comparisons: every comparison with NaN is false. *)
Definition le (x y : number) : bool :=
  match x, y with
  | NaN, _ | _, NaN => false
  | Num a, Num b => Qle_bool a b
  | NInf, _ | _, PInf => true
  | _, _ => false
  end.

Definition lt (x y : number) : bool :=
  match x, y with
  | NaN, _ | _, NaN => false
  | Num a, Num b => Qltb a b
  | PInf, _ | _, NInf => false
  | _, _ => true
  end.

Definition ge (x y : number) : bool := le y x.
Definition gt (x y : number) : bool := lt y x.

(** [Math.abs], [Math.min], [Math.max], [Math.round]. *)
Definition abs (x : number) : number :=
  match x with
  | Num q => Num (Qabs q)
  | PInf | NInf => PInf
  | NaN => NaN
  end.

Definition min (x y : number) : number :=
  match x, y with
  | NaN, _ | _, NaN => NaN
  | _, _ => if le x y then x else y
  end.

Definition max (x y : number) : number :=
  match x, y with
  | NaN, _ | _, NaN => NaN
  | _, _ => if le x y then y else x
  end.

(** [Math.round] rounds to the nearest integer, a tie going up. *)
Definition round (x : number) : number :=
  match x with
  | Num q => Num (inject_Z (Qfloor (q + (1 # 2))))
  | _ => x
  end.

(** Numbers are compared up to the equality of rationals. *)
Definition eqv (x y : number) : Prop :=
  match x, y with
  | Num a, Num b => a == b
  | PInf, PInf | NInf, NInf | NaN, NaN => True
  | _, _ => False
  end.

Definition of_Z (z : Z) : number := Num (inject_Z z).

(** A property read from an object of type [any]: a number, or [undefined]
    ([None]) when the object has no such property. *)
Definition value : Type := option number.

(** [ToNumber]: [undefined] becomes NaN. *)
Definition to_number (v : value) : number :=
  match v with
  | Some n => n
  | None => NaN
  end.

End JS.

Declare Scope js_scope.
Delimit Scope js_scope with js.
Bind Scope js_scope with JS.number.
Notation "x + y" := (JS.add x y) : js_scope.
Notation "x - y" := (JS.sub x y) : js_scope.
Notation "x * y" := (JS.mul x y) : js_scope.
Notation "x / y" := (JS.div x y) : js_scope.
Notation "x <? y" := (JS.lt x y) : js_scope.
Notation "x <=? y" := (JS.le x y) : js_scope.
Notation "x >? y" := (JS.gt x y) : js_scope.
Notation "x >=? y" := (JS.ge x y) : js_scope.
Notation "x ~= y" := (JS.eqv x y) (at level 70, no associativity) : type_scope.

Coercion JS.Num : Q >-> JS.number.

Local Open Scope string_scope.
Local Open Scope js_scope.

(** ** Sensor readings

    A row of [sensor_readings] as the routes receive it: an object of type
    [any].  The columns the routes read are kept; a property the object lacks
    reads as [undefined]. *)

Record SensorData : Type := mkSensorData {
  soil_moisture : JS.value;
  soil_temperature : JS.value;
  air_temperature : JS.value;
  air_humidity : JS.value;
  rainfall : JS.value
}.

(** A reading with every field present and finite. *)
Record Reading : Type := mkReading {
  r_soil_moisture : Q;
  r_soil_temperature : Q;
  r_air_temperature : Q;
  r_air_humidity : Q;
  r_rainfall : Q
}.

Definition sensor_of (r : Reading) : SensorData :=
  {| soil_moisture := Some (JS.Num (r_soil_moisture r));
     soil_temperature := Some (JS.Num (r_soil_temperature r));
     air_temperature := Some (JS.Num (r_air_temperature r));
     air_humidity := Some (JS.Num (r_air_humidity r));
     rainfall := Some (JS.Num (r_rainfall r)) |}.

(** ** Crop suitability *)

Module Crop.

Record Optimal : Type := mkOptimal {
  o_soil_moisture : JS.number * JS.number;
  o_soil_temperature : JS.number * JS.number;
  o_air_temperature : JS.number * JS.number;
  o_air_humidity : JS.number * JS.number
}.

Record Params : Type := mkParams {
  p_soil_moisture : JS.number;
  p_soil_temperature : JS.number;
  p_air_temperature : JS.number;
  p_air_humidity : JS.number;
  optimal : Optimal
}.

Definition calculateParameterScore (value : JS.number)
    (optimal : JS.number * JS.number) : JS.number :=
  let '(min, max) := optimal in
  let mid := (min + max) / 2 in
  let range := max - min in
  if (value >=? min) && (value <=? max) then
    let distanceFromCenter := JS.abs (value - mid) in
    100 - (distanceFromCenter / (range / 2)) * 20
  else
    let distance := if value <? min then min - value else value - max in
    let penalty := JS.min (distance * 5) 80 in
    JS.max 20 (100 - penalty).

Definition array_length {A : Type} (l : list A) : JS.number :=
  JS.of_Z (Z.of_nat (List.length l)).

Definition calculateCropSuitability (params : Params) : JS.number :=
  let scores :=
    [ calculateParameterScore (p_soil_moisture params)
        (o_soil_moisture (optimal params));
      calculateParameterScore (p_soil_temperature params)
        (o_soil_temperature (optimal params));
      calculateParameterScore (p_air_temperature params)
        (o_air_temperature (optimal params));
      calculateParameterScore (p_air_humidity params)
        (o_air_humidity (optimal params)) ] in
  JS.round
    (fold_left (fun sum score => sum + score) scores (JS.Num 0)
     / array_length scores).

(** *** Recommendation texts *)

Definition getTomatoRecommendation (sensorData : SensorData)
    (score : JS.number) : string :=
  let soil_moisture := JS.to_number (soil_moisture sensorData) in
  let air_temperature := JS.to_number (air_temperature sensorData) in
  if score >=? 80 then
    "Excellent conditions for tomatoes! Your soil moisture and temperature are ideal for healthy growth and fruit production."
  else if score >=? 60 then
    "Good conditions for tomatoes. "
    ++ (if soil_moisture <? 40 then "Consider increasing irrigation frequency."
        else if soil_moisture >? 70 then "Reduce watering to prevent root rot."
        else EmptyString)
    ++ " "
    ++ (if air_temperature >? 30
        then "Provide shade during hottest parts of the day."
        else EmptyString)
  else
    "Challenging conditions for tomatoes. "
    ++ (if air_temperature <? 20
        then "Temperature is too cool - consider greenhouse or wait for warmer weather."
        else if air_temperature >? 35
        then "Temperature is too hot - provide shade and increase watering."
        else EmptyString)
    ++ " Monitor soil moisture closely.".

Definition getLettuceRecommendation (sensorData : SensorData)
    (score : JS.number) : string :=
  let soil_moisture := JS.to_number (soil_moisture sensorData) in
  let air_temperature := JS.to_number (air_temperature sensorData) in
  if score >=? 80 then
    "Perfect conditions for lettuce! Cool temperatures and adequate moisture will produce crisp, tender leaves."
  else if score >=? 60 then
    "Good conditions for lettuce. "
    ++ (if air_temperature >? 25
        then "Provide afternoon shade to prevent bolting."
        else EmptyString)
    ++ " "
    ++ (if soil_moisture <? 50
        then "Increase watering frequency for best leaf quality."
        else EmptyString)
  else
    "Difficult conditions for lettuce. "
    ++ (if air_temperature >? 30
        then "Too hot - lettuce will bolt quickly. Consider heat-tolerant varieties or wait for cooler weather."
        else EmptyString)
    ++ " Ensure consistent soil moisture.".

Definition getPepperRecommendation (sensorData : SensorData)
    (score : JS.number) : string :=
  let soil_moisture := JS.to_number (soil_moisture sensorData) in
  let air_temperature := JS.to_number (air_temperature sensorData) in
  if score >=? 80 then
    "Excellent conditions for peppers! Warm temperatures and moderate moisture will promote healthy fruit development."
  else if score >=? 60 then
    "Good conditions for peppers. "
    ++ (if air_temperature <? 22
        then "Consider using row covers or greenhouse protection."
        else EmptyString)
    ++ " "
    ++ (if soil_moisture >? 65
        then "Allow soil to dry slightly between waterings."
        else EmptyString)
  else
    "Challenging conditions for peppers. "
    ++ (if air_temperature <? 18
        then "Too cool for peppers - wait for warmer weather or use protection."
        else EmptyString)
    ++ " Adjust watering based on soil moisture levels.".

Definition getSpinachRecommendation (sensorData : SensorData)
    (score : JS.number) : string :=
  let soil_moisture := JS.to_number (soil_moisture sensorData) in
  let air_temperature := JS.to_number (air_temperature sensorData) in
  if score >=? 80 then
    "Ideal conditions for spinach! Cool temperatures and high moisture will produce tender, flavorful leaves."
  else if score >=? 60 then
    "Good conditions for spinach. "
    ++ (if air_temperature >? 20
        then "Provide shade to prevent early bolting."
        else EmptyString)
    ++ " "
    ++ (if soil_moisture <? 60
        then "Increase watering for optimal leaf development."
        else EmptyString)
  else
    "Poor conditions for spinach. "
    ++ (if air_temperature >? 25
        then "Too warm - spinach will bolt quickly. Wait for cooler weather."
        else EmptyString)
    ++ " Maintain consistent soil moisture.".

Definition getCarrotRecommendation (sensorData : SensorData)
    (score : JS.number) : string :=
  let soil_moisture := JS.to_number (soil_moisture sensorData) in
  let air_temperature := JS.to_number (air_temperature sensorData) in
  if score >=? 80 then
    "Great conditions for carrots! Moderate temperatures and consistent moisture will produce straight, sweet roots."
  else if score >=? 60 then
    "Good conditions for carrots. "
    ++ (if soil_moisture >? 75
        then "Reduce watering to prevent root rot and splitting."
        else EmptyString)
    ++ " "
    ++ (if air_temperature >? 24
        then "Provide mulch to keep soil cool."
        else EmptyString)
  else
    "Challenging conditions for carrots. "
    ++ (if air_temperature >? 28
        then "Too warm - roots may become bitter and tough."
        else EmptyString)
    ++ " Ensure consistent but not excessive soil moisture.".

(** *** [Array.prototype.sort]

    The built-in sort is stable, and with a consistent comparator it yields
    the one stable ordering; it is modelled by insertion from the right.  The
    comparator's NaN counts as zero. *)

Section ArraySort.
Context {A : Type} (comparefn : A -> A -> JS.number).

Definition SortCompare (x y : A) : JS.number :=
  match comparefn x y with
  | JS.NaN => JS.Num 0
  | v => v
  end.

Fixpoint sort_insert (x : A) (l : list A) : list A :=
  match l with
  | [] => [x]
  | y :: l' =>
      if SortCompare x y <=? 0 then x :: l else y :: sort_insert x l'
  end.

Definition Array_sort (l : list A) : list A :=
  fold_right sort_insert [] l.
End ArraySort.

(** *** Recommendations *)

Record CropRecommendation : Type := mkCropRecommendation {
  crop_type : string;
  suitability_score : JS.number;
  recommendation_text : string;
  planting_season : string;
  expected_yield : string;
  care_instructions : list string;
  growth_duration : string;
  water_requirements : string;
  temperature_range : string
}.

(** The argument of [calculateCropSuitability]: the four readings, which
    arithmetic and comparisons take through [ToNumber], and a profile. *)
Definition params_of (sensorData : SensorData) (o : Optimal) : Params :=
  {| p_soil_moisture := JS.to_number (soil_moisture sensorData);
     p_soil_temperature := JS.to_number (soil_temperature sensorData);
     p_air_temperature := JS.to_number (air_temperature sensorData);
     p_air_humidity := JS.to_number (air_humidity sensorData);
     optimal := o |}.

(** The array literal [[min, max]] of two finite numbers. *)
Definition range (min max : Q) : JS.number * JS.number :=
  (JS.Num min, JS.Num max).

Definition tomato_optimal : Optimal :=
  {| o_soil_moisture := range 40 70;
     o_soil_temperature := range 18 24;
     o_air_temperature := range 20 30;
     o_air_humidity := range 50 70 |}.

Definition lettuce_optimal : Optimal :=
  {| o_soil_moisture := range 50 80;
     o_soil_temperature := range 10 18;
     o_air_temperature := range 15 25;
     o_air_humidity := range 60 80 |}.

Definition pepper_optimal : Optimal :=
  {| o_soil_moisture := range 35 65;
     o_soil_temperature := range 20 28;
     o_air_temperature := range 22 32;
     o_air_humidity := range 40 60 |}.

Definition spinach_optimal : Optimal :=
  {| o_soil_moisture := range 60 85;
     o_soil_temperature := range 8 16;
     o_air_temperature := range 10 20;
     o_air_humidity := range 65 85 |}.

Definition carrot_optimal : Optimal :=
  {| o_soil_moisture := range 45 75;
     o_soil_temperature := range 12 20;
     o_air_temperature := range 16 24;
     o_air_humidity := range 50 70 |}.

(** The five profiles the route scores, in the order it scores them. *)
Definition builtin_profiles : list Optimal :=
  [tomato_optimal; lettuce_optimal; pepper_optimal; spinach_optimal;
   carrot_optimal].

(** The array before it is sorted: one [push] per crop. *)
Definition pushed_recommendations (sensorData : SensorData)
    : list CropRecommendation :=
  let tomatoScore := calculateCropSuitability (params_of sensorData tomato_optimal) in
  let lettuceScore := calculateCropSuitability (params_of sensorData lettuce_optimal) in
  let pepperScore := calculateCropSuitability (params_of sensorData pepper_optimal) in
  let spinachScore := calculateCropSuitability (params_of sensorData spinach_optimal) in
  let carrotScore := calculateCropSuitability (params_of sensorData carrot_optimal) in
  [ {| crop_type := "Tomatoes";
       suitability_score := tomatoScore;
       recommendation_text := getTomatoRecommendation sensorData tomatoScore;
       planting_season := "Spring to Early Summer";
       expected_yield := "15-25 kg per plant";
       care_instructions :=
         [ "Water regularly but avoid overwatering";
           "Provide support stakes or cages";
           "Prune suckers for better fruit development";
           "Monitor for pests like aphids and whiteflies" ];
       growth_duration := "75-85 days";
       water_requirements := "Moderate to High";
       temperature_range := "20-30°C optimal" |};
    {| crop_type := "Lettuce";
       suitability_score := lettuceScore;
       recommendation_text := getLettuceRecommendation sensorData lettuceScore;
       planting_season := "Cool seasons - Spring and Fall";
       expected_yield := "200-400g per head";
       care_instructions :=
         [ "Keep soil consistently moist";
           "Provide partial shade in hot weather";
           "Harvest outer leaves first for continuous growth";
           "Watch for slugs and aphids" ];
       growth_duration := "45-65 days";
       water_requirements := "High";
       temperature_range := "15-25°C optimal" |};
    {| crop_type := "Peppers";
       suitability_score := pepperScore;
       recommendation_text := getPepperRecommendation sensorData pepperScore;
       planting_season := "Late Spring to Summer";
       expected_yield := "1-2 kg per plant";
       care_instructions :=
         [ "Allow soil to dry slightly between waterings";
           "Provide warm, sunny location";
           "Support heavy-fruited varieties";
           "Regular feeding with balanced fertilizer" ];
       growth_duration := "70-90 days";
       water_requirements := "Moderate";
       temperature_range := "22-32°C optimal" |};
    {| crop_type := "Spinach";
       suitability_score := spinachScore;
       recommendation_text := getSpinachRecommendation sensorData spinachScore;
       planting_season := "Cool weather - Early Spring and Fall";
       expected_yield := "150-300g per plant";
       care_instructions :=
         [ "Keep soil consistently moist";
           "Provide shade in warm weather";
           "Harvest leaves when young and tender";
           "Succession plant every 2 weeks" ];
       growth_duration := "30-45 days";
       water_requirements := "High";
       temperature_range := "10-20°C optimal" |};
    {| crop_type := "Carrots";
       suitability_score := carrotScore;
       recommendation_text := getCarrotRecommendation sensorData carrotScore;
       planting_season := "Spring and Fall";
       expected_yield := "100-200g per root";
       care_instructions :=
         [ "Ensure deep, loose soil for straight roots";
           "Thin seedlings to prevent crowding";
           "Keep soil evenly moist";
           "Avoid fresh manure which causes forked roots" ];
       growth_duration := "70-80 days";
       water_requirements := "Moderate";
       temperature_range := "16-24°C optimal" |} ].

Definition by_score_descending (a b : CropRecommendation) : JS.number :=
  suitability_score b - suitability_score a.

Definition generateCropRecommendations (sensorData : SensorData)
    : list CropRecommendation :=
  Array_sort by_score_descending (pushed_recommendations sensorData).

End Crop.

(** ** The motor-control log and the store

    [motor_control] is an append-only table; the routes read its newest row
    ([order("created_at", descending)], [limit(1)], [single()]) and insert
    rows without a [created_at], so the table is kept newest first and an
    insert puts the row in front.  [sensor_readings] is kept in the order of
    the query, newest [timestamp] first.  Every query may fail: [faults]
    says, query after query, whether the next one does ([true]); past its end
    no query fails. *)

Inductive json : Type :=
| JUndefined
| JNull
| JBool (b : bool)
| JNumber (n : JS.number)
| JString (s : string).

(** The [reason] column.  A template literal is kept as its template and the
    numbers it formats with [toFixed(1)]. *)
Inductive reason_text : Type :=
| Supplied (reason : json)
| ViaMode (status : bool) (mode : string)
| DueToRainfall (rainfall : JS.number)
| CriticalMoisture (soil_moisture : JS.number)
| LowMoisture (soil_moisture : JS.number)
| HotAndDry (air_temperature air_humidity : JS.number)
| HighMoisture (soil_moisture : JS.number)
| AdequateMoisture (soil_moisture : JS.number)
| BasedOnReadings (soil_moisture air_temperature : JS.number).

Record MotorRecord : Type := mkMotorRecord {
  status : bool;
  mode : string;
  reason : reason_text;
  changed_by : string
}.

Record Store : Type := mkStore {
  sensor_readings : list SensorData;
  motor_control : list MotorRecord;
  faults : list bool
}.

Inductive result (A : Type) : Type :=
| Data (data : A)
| Error.
Arguments Data {A} data.
Arguments Error {A}.

Definition next_fault (s : Store) : bool * Store :=
  match faults s with
  | [] => (false, s)
  | f :: fs =>
      (f, {| sensor_readings := sensor_readings s;
             motor_control := motor_control s;
             faults := fs |})
  end.

(** [select("*").order(..., descending).limit(1).single()]: an error when the
    query fails or the table has no row. *)
Definition select_latest {A : Type} (table : Store -> list A) (s : Store)
    : result A * Store :=
  let '(failed, s) := next_fault s in
  if failed then (Error, s)
  else match table s with
       | [] => (Error, s)
       | row :: _ => (Data row, s)
       end.

(** [insert([row]).select().single()]. *)
Definition insert_motor (row : MotorRecord) (s : Store)
    : result MotorRecord * Store :=
  let '(failed, s) := next_fault s in
  if failed then (Error, s)
  else (Data row,
        {| sensor_readings := sensor_readings s;
           motor_control := row :: motor_control s;
           faults := faults s |}).

(** The audit log's current state: its newest record. *)
Definition latest (s : Store) : option MotorRecord := hd_error (motor_control s).

(** ** Automatic control: [app/api/motor/auto-control/route.ts] *)

Module AutoControl.

Definition determineMotorAction (sensorData : SensorData) : bool :=
  let soil_moisture := JS.to_number (soil_moisture sensorData) in
  let air_temperature := JS.to_number (air_temperature sensorData) in
  let air_humidity := JS.to_number (air_humidity sensorData) in
  let rainfall := JS.to_number (rainfall sensorData) in
  if rainfall >? 1 then false
  else if soil_moisture <? 30 then true
  else if soil_moisture >? 60 then false
  else if (soil_moisture <? 40) && (air_temperature >? 30)
          && (air_humidity <? 50) then true
  else false.

(** [v.toFixed(1)] throws a TypeError ([None]) when [v] is [undefined]; the
    formatted number stands for its text. *)
Definition toFixed (v : JS.value) : option JS.number := v.

Definition bind {A B : Type} (m : option A) (k : A -> option B) : option B :=
  match m with
  | Some a => k a
  | None => None
  end.

Notation "x <- m ;; k" := (bind m (fun x => k))
  (at level 61, m at next level, right associativity).

Definition generateAutoControlReason (sensorData : SensorData)
    (shouldActivate : bool) : option reason_text :=
  let soil_moisture := soil_moisture sensorData in
  let air_temperature := air_temperature sensorData in
  let air_humidity := air_humidity sensorData in
  let rainfall := rainfall sensorData in
  let based_on_readings :=
    m <- toFixed soil_moisture ;;
    t <- toFixed air_temperature ;;
    Some (BasedOnReadings m t) in
  if JS.to_number rainfall >? 1 then
    r <- toFixed rainfall ;; Some (DueToRainfall r)
  else if shouldActivate then
    if JS.to_number soil_moisture <? 20 then
      m <- toFixed soil_moisture ;; Some (CriticalMoisture m)
    else if JS.to_number soil_moisture <? 30 then
      m <- toFixed soil_moisture ;; Some (LowMoisture m)
    else if (JS.to_number air_temperature >? 30)
            && (JS.to_number air_humidity <? 50) then
      t <- toFixed air_temperature ;;
      h <- toFixed air_humidity ;;
      Some (HotAndDry t h)
    else based_on_readings
  else
    if JS.to_number soil_moisture >? 70 then
      m <- toFixed soil_moisture ;; Some (HighMoisture m)
    else if JS.to_number soil_moisture >? 60 then
      m <- toFixed soil_moisture ;; Some (AdequateMoisture m)
    else based_on_readings.

Inductive Response : Type :=
| Failed (error : string)
    (* status 500, { error } *)
| ManualMode (current_status : bool)
    (* "Motor is in manual mode, automatic control disabled", action "none" *)
| Switched (action : string) (reason : reason_text)
    (soil_moisture air_temperature air_humidity : JS.value)
    (new_status : MotorRecord)
    (* "Motor activated|deactivated automatically" *)
| NoAction (current_status : bool)
    (soil_moisture air_temperature air_humidity : JS.value).
    (* "No action needed, motor status optimal", action "none" *)

(** The handler reads the newest reading and the newest motor record, and
    inserts a record when the decision differs from the record's status.  An
    exception (here: of [toFixed]) is caught and answered by the last 500. *)
Definition POST (s : Store) : Response * Store :=
  let '(sensor, s) := select_latest sensor_readings s in
  match sensor with
  | Error => (Failed "Failed to fetch sensor data", s)
  | Data sensorData =>
      let '(motor, s) := select_latest motor_control s in
      match motor with
      | Error => (Failed "Failed to fetch motor status", s)
      | Data motorData =>
          if negb (mode motorData =? "automatic")%string then
            (ManualMode (status motorData), s)
          else
            let shouldActivate := determineMotorAction sensorData in
            let currentStatus := status motorData in
            if negb (Bool.eqb shouldActivate currentStatus) then
              match generateAutoControlReason sensorData shouldActivate with
              | None => (Failed "Internal server error", s)
              | Some reason =>
                  let '(inserted, s) :=
                    insert_motor
                      {| status := shouldActivate;
                         mode := "automatic";
                         reason := reason;
                         changed_by := "system" |} s in
                  match inserted with
                  | Error => (Failed "Failed to update motor status", s)
                  | Data newMotorData =>
                      (Switched
                         (if shouldActivate then "activated" else "deactivated")
                         reason
                         (soil_moisture sensorData)
                         (air_temperature sensorData)
                         (air_humidity sensorData)
                         newMotorData, s)
                  end
              end
            else
              (NoAction currentStatus
                 (soil_moisture sensorData)
                 (air_temperature sensorData)
                 (air_humidity sensorData), s)
      end
  end.

End AutoControl.

(** ** Manual control: [POST] of [app/api/motor/route.ts] *)

Module MotorRoute.

Record Request : Type := mkRequest {
  rq_status : json;
  rq_mode : json;
  rq_reason : json;
  rq_changed_by : json
}.

Definition truthy (j : json) : bool :=
  match j with
  | JUndefined | JNull => false
  | JBool b => b
  | JNumber (JS.Num q) => negb (Qeq_bool q 0)
  | JNumber JS.NaN => false
  | JNumber _ => true
  | JString s => negb (s =? EmptyString)%string
  end.

(** [[a, b].includes(j)] for two strings. *)
Definition includes (a b : string) (j : json) : option string :=
  match j with
  | JString s => if ((s =? a) || (s =? b))%string then Some s else None
  | _ => None
  end.

Inductive Response : Type :=
| BadRequest (error : string)
| Failed (error : string)
| Success (data : MotorRecord).

(** [body] is [None] when the request has no JSON object to destructure. *)
Definition POST (body : option Request) (s : Store) : Response * Store :=
  match body with
  | None => (Failed "Internal server error", s)
  | Some rq =>
      match rq_status rq with
      | JBool status =>
          match includes "automatic" "manual" (rq_mode rq) with
          | None => (BadRequest "Mode must be 'automatic' or 'manual'", s)
          | Some mode =>
              match includes "system" "user" (rq_changed_by rq) with
              | None =>
                  (BadRequest "Changed_by must be 'system' or 'user'", s)
              | Some changed_by =>
                  let '(inserted, s) :=
                    insert_motor
                      {| status := status;
                         mode := mode;
                         reason :=
                           if truthy (rq_reason rq) then Supplied (rq_reason rq)
                           else ViaMode status mode;
                         changed_by := changed_by |} s in
                  match inserted with
                  | Error => (Failed "Failed to update motor status", s)
                  | Data data => (Success data, s)
                  end
              end
          end
      | _ => (BadRequest "Status must be boolean", s)
      end
  end.

End MotorRoute.

(** ** Motor status: [GET] of [app/api/motor/route.ts] *)

Module MotorStatus.

(** The body is a motor record ([created_at] apart) and the [error] flag;
    [http] is the status of the answer. *)
Record Response : Type := mkResponse {
  body : MotorRecord;
  error : bool;
  http : nat
}.

Definition GET (s : Store) : Response * Store :=
  let '(fetched, s) := select_latest motor_control s in
  match fetched with
  | Error =>
      ({| body := {| status := false;
                     mode := "automatic";
                     reason := Supplied (JString "Database connection error");
                     changed_by := "system" |};
          error := true;
          http := 200 |}, s)
  | Data data => ({| body := data; error := false; http := 200 |}, s)
  end.

End MotorStatus.

(** ** The motor panel: [MotorControlPanel] of
    [components/historical-analysis.tsx]

    The state of the component is kept as far as its handlers read and write
    it.  A handler runs to its end before the next one starts; the refresh a
    handler schedules with [setTimeout] is the later step [fetchMotorStatus]
    and is not part of the handler.  Every request reaches its route: a
    failing network is not modelled. *)

Module Panel.

Record State : Type := mkState {
  motorStatus : option MotorRecord;
  error : option string;
  isUpdating : bool
}.

Definition fetchMotorStatus (p : State) (s : Store) : State * Store :=
  let '(response, s) := MotorStatus.GET s in
  ({| motorStatus := Some (MotorStatus.body response);
      error := if MotorStatus.error response
               then Some "Database connection error" else None;
      isUpdating := isUpdating p |}, s).

(** The body [toggleMotor] sends for the status it last fetched. *)
Definition toggle_body (current : MotorRecord) : MotorRoute.Request :=
  {| MotorRoute.rq_status := JBool (negb (status current));
     MotorRoute.rq_mode := JString "manual";
     MotorRoute.rq_reason :=
       JString ("Manual "
                ++ (if negb (status current) then "activation"
                    else "deactivation")
                ++ " by user");
     MotorRoute.rq_changed_by := JString "user" |}.

Definition toggleMotor (p : State) (s : Store) : State * Store :=
  match motorStatus p with
  | None => (p, s)
  | Some current =>
      if isUpdating p then (p, s)
      else
        let '(response, s) := MotorRoute.POST (Some (toggle_body current)) s in
        match response with
        | MotorRoute.Success data =>
            ({| motorStatus := Some data; error := None;
                isUpdating := false |}, s)
        | _ =>
            ({| motorStatus := motorStatus p;
                error := Some "Failed to control motor";
                isUpdating := false |}, s)
        end
  end.

(** The body [switchToAutomatic] sends. *)
Definition automatic_body (current : MotorRecord) : MotorRoute.Request :=
  {| MotorRoute.rq_status := JBool (status current);
     MotorRoute.rq_mode := JString "automatic";
     MotorRoute.rq_reason := JString "Switched to automatic mode";
     MotorRoute.rq_changed_by := JString "user" |}.

(** After the mode is switched the handler triggers one automatic-control
    request, whose answer it does not read. *)
Definition switchToAutomatic (p : State) (s : Store) : State * Store :=
  match motorStatus p with
  | None => (p, s)
  | Some current =>
      if isUpdating p then (p, s)
      else
        let '(response, s) :=
          MotorRoute.POST (Some (automatic_body current)) s in
        match response with
        | MotorRoute.Success data =>
            let '(_, s) := AutoControl.POST s in
            ({| motorStatus := Some data; error := None;
                isUpdating := false |}, s)
        | _ =>
            ({| motorStatus := motorStatus p;
                error := Some "Failed to switch to automatic mode";
                isUpdating := false |}, s)
        end
  end.

End Panel.

(** ** The browser client: [SmartFarmClient] of [lib/supabase-client.ts] *)

Module Client.

(** [select("*").order(..., descending).limit(1)]: at most one row. *)
Definition select_newest {A : Type} (table : Store -> list A) (s : Store)
    : result (list A) * Store :=
  let '(failed, s) := next_fault s in
  if failed then (Error, s) else (Data (firstn 1 (table s)), s).

(** [None] when the insert fails: the method throws. *)
Definition updateMotorStatus (status : bool) (mode reason changed_by : string)
    (s : Store) : option MotorRecord * Store :=
  let '(inserted, s) :=
    insert_motor
      (mkMotorRecord status mode (Supplied (JString reason)) changed_by) s in
  match inserted with
  | Error => (None, s)
  | Data insertedStatus => (Some insertedStatus, s)
  end.

(** The status the method returns when anything inside its [try] throws. *)
Definition default_status : MotorRecord :=
  {| status := false;
     mode := "automatic";
     reason := Supplied (JString "System default - database error");
     changed_by := "system" |}.

Definition getMotorStatus (s : Store) : MotorRecord * Store :=
  let '(fetched, s) := select_newest motor_control s in
  match fetched with
  | Error => (default_status, s)
  | Data [] =>
      let '(created, s) :=
        updateMotorStatus false "automatic" "Initial system setup" "system" s in
      match created with
      | None => (default_status, s)
      | Some created => (created, s)
      end
  | Data (status :: _) => (status, s)
  end.

End Client.

(** ** The recommendation route: [GET] of the crop recommendation route

    The table [crop_recommendations] is a list beside the store, newest row
    first.  A stored row refers to its reading by [based_on_reading_id]; the
    reading itself stands for its [id]. *)

Module CropRoute.

Record Row : Type := mkRow {
  row_crop_type : string;
  row_recommendation_text : string;
  confidence_score : JS.number;
  based_on_reading : SensorData
}.

Inductive Response : Type :=
| Failed (error : string)
| Recommendations (recommendations : list Crop.CropRecommendation)
    (sensor_data : SensorData).

Definition rows_of (sensorData : SensorData)
    (recommendations : list Crop.CropRecommendation) : list Row :=
  map (fun rec =>
         {| row_crop_type := Crop.crop_type rec;
            row_recommendation_text := Crop.recommendation_text rec;
            confidence_score := Crop.suitability_score rec / 100;
            based_on_reading := sensorData |})
      recommendations.

(** The insert of all rows at once; its failure is logged and no more. *)
Definition GET (s : Store) (crop_recommendations : list Row)
    : Response * Store * list Row :=
  let '(sensor, s) := select_latest sensor_readings s in
  match sensor with
  | Error => (Failed "Failed to fetch sensor data", s, crop_recommendations)
  | Data sensorData =>
      let recommendations := Crop.generateCropRecommendations sensorData in
      let '(insertError, s) := next_fault s in
      let crop_recommendations :=
        if insertError then crop_recommendations
        else (rows_of sensorData recommendations ++ crop_recommendations)%list in
      (Recommendations recommendations sensorData, s, crop_recommendations)
  end.

End CropRoute.

(** ** The sensor card: [getOptimalProgress] of [EnhancedSensorCard] *)

Module SensorCard.


End SensorCard.

(** ** Requests in sequence *)

Inductive Request : Type :=
| AutoControlPoll
| MotorCommand (body : option MotorRoute.Request)
| MotorStatusQuery.

Definition serve (s : Store) (rq : Request) : Store :=
  match rq with
  | AutoControlPoll => snd (AutoControl.POST s)
  | MotorCommand body => snd (MotorRoute.POST body s)
  | MotorStatusQuery => snd (MotorStatus.GET s)
  end.

Definition serve_all (rqs : list Request) (s : Store) : Store :=
  fold_left serve rqs s.

(** The values the schema's comments allow in [mode] and [changed_by]. *)
Definition valid_record (r : MotorRecord) : Prop :=
  (mode r = "automatic" \/ mode r = "manual")
  /\ (changed_by r = "system" \/ changed_by r = "user").

(** The record the browser client seeds an empty log with. *)
Definition seeded_record : MotorRecord :=
  mkMotorRecord false "automatic" (Supplied (JString "Initial system setup"))
    "system".

(** The hold zone: no rule of the policy fires. *)
Definition no_rule_fires (r : Reading) : Prop :=
  (r_rainfall r <= 1)%Q
  /\ (30 <= r_soil_moisture r)%Q /\ (r_soil_moisture r <= 60)%Q
  /\ ~ ((r_soil_moisture r < 40)%Q /\ (30 < r_air_temperature r)%Q
        /\ (r_air_humidity r < 50)%Q).



(** ** Vocabulary of the statements *)



(** The sub-score of a finite value against a range of finite bounds. *)
Definition sub_score (lo hi : Q) (v : Q) : JS.number :=
  Crop.calculateParameterScore (JS.Num v) (Crop.range lo hi).

Definition is_finite (x : JS.number) : Prop := exists q : Q, x = JS.Num q.

Definition finite_params (params : Crop.Params) : Prop :=
  is_finite (Crop.p_soil_moisture params)
  /\ is_finite (Crop.p_soil_temperature params)
  /\ is_finite (Crop.p_air_temperature params)
  /\ is_finite (Crop.p_air_humidity params).

(** A range [[min, max]] of finite bounds with [min < max]. *)
Definition nondegenerate_range (r : JS.number * JS.number) : Prop :=
  exists lo hi : Q, r = Crop.range lo hi /\ (lo < hi)%Q.

Definition nondegenerate (o : Crop.Optimal) : Prop :=
  nondegenerate_range (Crop.o_soil_moisture o)
  /\ nondegenerate_range (Crop.o_soil_temperature o)
  /\ nondegenerate_range (Crop.o_air_temperature o)
  /\ nondegenerate_range (Crop.o_air_humidity o).

(** [a] may stand before [b] in a list sorted by descending score. *)
Definition descending (a b : Crop.CropRecommendation) : Prop :=
  (Crop.suitability_score b <=? Crop.suitability_score a) = true.

Definition has_score (q : Q) (r : Crop.CropRecommendation) : bool :=
  match Crop.suitability_score r with
  | JS.Num x => Qeq_bool x q
  | _ => false
  end.

Definition finite_scores (l : list Crop.CropRecommendation) : Prop :=
  Forall (fun r => is_finite (Crop.suitability_score r)) l.

(** A record of a given name and score, its other fields empty. *)
Definition scored (name : string) (score : Q) : Crop.CropRecommendation :=
  {| Crop.crop_type := name;
     Crop.suitability_score := JS.Num score;
     Crop.recommendation_text := EmptyString;
     Crop.planting_season := EmptyString;
     Crop.expected_yield := EmptyString;
     Crop.care_instructions := [];
     Crop.growth_duration := EmptyString;
     Crop.water_requirements := EmptyString;
     Crop.temperature_range := EmptyString |}.

(** The denominator [range / 2] of the division of
    [calculateParameterScore], when the call evaluates it: in the branch
    of a value inside the range, and in no other. *)
Definition division_denominator (value : JS.number)
    (optimal : JS.number * JS.number) : option JS.number :=
  let '(min, max) := optimal in
  if (value >=? min) && (value <=? max) then Some ((max - min) / 2)
  else None.




(** The store after [n] automatic-control requests in a row. *)
Fixpoint auto_control_runs (n : nat) (s : Store) : Store :=
  match n with
  | O => s
  | S n' => auto_control_runs n' (snd (AutoControl.POST s))
  end.

(** The record the automatic control inserts. *)
Definition system_record (decision : bool) (why : reason_text) : MotorRecord :=
  {| status := decision; mode := "automatic"; reason := why;
     changed_by := "system" |}.

(** The row the schema script seeds the log with. *)
Definition initial_record : MotorRecord :=
  {| status := false; mode := "automatic";
     reason := Supplied (JString "Initial setup"); changed_by := "system" |}.

(** The body of a user's manual command. *)
Definition manual_command (on : bool) (why : json) : MotorRoute.Request :=
  {| MotorRoute.rq_status := JBool on;
     MotorRoute.rq_mode := JString "manual";
     MotorRoute.rq_reason := why;
     MotorRoute.rq_changed_by := JString "user" |}.

(** Example inputs. *)
Definition dry_store : Store :=
  mkStore [sensor_of (mkReading 18 20 25 60 0)] [initial_record] [].

Definition manual_record : MotorRecord :=
  mkMotorRecord true "manual" (ViaMode true "manual") "user".

Definition manual_store : Store :=
  mkStore [sensor_of (mkReading 70 20 25 60 5)] [manual_record] [].

Definition running_record : MotorRecord :=
  mkMotorRecord true "automatic" (ViaMode true "automatic") "user".




(** * Properties *)

(** ** Rational tests *)

Lemma Qle_bool_false (a b : Q) : Qle_bool a b = false -> (b < a)%Q.
Proof.
  intros H. destruct (Qlt_le_dec b a) as [Hlt | Hle]; [exact Hlt |].
  apply Qle_bool_iff in Hle. congruence.
Qed.

Lemma Qltb_true (a b : Q) : JS.Qltb a b = true <-> (a < b)%Q.
Proof.
  unfold JS.Qltb. split.
  - intros H. apply Qle_bool_false. now apply negb_true_iff.
  - intros H. apply negb_true_iff.
    destruct (Qle_bool b a) eqn:E; [| reflexivity].
    apply Qle_bool_iff in E. lra.
Qed.

Lemma Qltb_false (a b : Q) : JS.Qltb a b = false <-> (b <= a)%Q.
Proof.
  unfold JS.Qltb. rewrite negb_false_iff. apply Qle_bool_iff.
Qed.

Lemma Qeq_bool_false (a b : Q) : Qeq_bool a b = false -> ~ (a == b)%Q.
Proof.
  intros H E. apply Qeq_bool_iff in E. congruence.
Qed.

(** Turn every rational test of the goal into a fact of the context. *)
Ltac js_ops :=
  cbn [JS.ge JS.gt JS.le JS.lt JS.sub JS.add JS.neg JS.div JS.abs JS.mul
       JS.min JS.max JS.round JS.to_number JS.of_Z].

Ltac qtests :=
  js_ops;
  repeat match goal with
  | |- context [Qle_bool ?a ?b] =>
      let E := fresh "E" in
      destruct (Qle_bool a b) eqn:E;
      [apply Qle_bool_iff in E | apply Qle_bool_false in E]; js_ops
  | |- context [JS.Qltb ?a ?b] =>
      let E := fresh "E" in
      destruct (JS.Qltb a b) eqn:E;
      [apply Qltb_true in E | apply Qltb_false in E]; js_ops
  | |- context [Qeq_bool ?a ?b] =>
      let E := fresh "E" in
      destruct (Qeq_bool a b) eqn:E;
      [apply Qeq_bool_iff in E | apply Qeq_bool_false in E]; js_ops
  end.

(** Division by a constant, as the multiplication [lra] understands. *)
Ltac qconst :=
  repeat match goal with
  | |- context [(?x / 2)%Q] => change (x / 2)%Q with (x * (1 # 2))%Q
  | H : context [(?x / 2)%Q] |- _ =>
      change (x / 2)%Q with (x * (1 # 2))%Q in H
  end.


(** ** The per-parameter score *)

Module CropFacts.
Import Crop.

(** Inside a non-degenerate range the score is the linear formula. *)
Lemma score_inside (v lo hi : Q) :
  (lo < hi)%Q -> (lo <= v)%Q -> (v <= hi)%Q ->
  calculateParameterScore (JS.Num v) (range lo hi)
  = JS.Num (100 - (Qabs (v - (lo + hi) / 2) / ((hi - lo) / 2)) * 20).
Proof.
  intros Hlh Hlo Hhi. unfold calculateParameterScore, range.
  cbn [JS.ge JS.le JS.sub JS.add JS.neg JS.div JS.abs JS.mul].
  change (Qeq_bool 2 0) with false. cbv iota.
  apply Qle_bool_iff in Hlo, Hhi. rewrite Hlo, Hhi. cbn [andb].
  cbn [JS.ge JS.le JS.sub JS.add JS.neg JS.div JS.abs JS.mul].
  destruct (Qeq_bool ((hi + - lo) / 2) 0) eqn:E.
  - apply Qeq_bool_iff in E. qconst. lra.
  - reflexivity.
Qed.

Lemma score_below (v lo hi : Q) :
  (v < lo)%Q ->
  calculateParameterScore (JS.Num v) (range lo hi)
  = JS.max 20 (100 - JS.min (JS.Num ((lo - v) * 5)) 80).
Proof.
  intros Hv. unfold calculateParameterScore, range.
  cbn [JS.ge JS.le JS.lt].
  assert (E : Qle_bool lo v = false).
  { destruct (Qle_bool lo v) eqn:E; [| reflexivity].
    apply Qle_bool_iff in E. lra. }
  rewrite E. cbn [andb].
  apply Qltb_true in Hv. rewrite Hv. reflexivity.
Qed.

Lemma score_above (v lo hi : Q) :
  (lo <= v)%Q -> (hi < v)%Q ->
  calculateParameterScore (JS.Num v) (range lo hi)
  = JS.max 20 (100 - JS.min (JS.Num ((v - hi) * 5)) 80).
Proof.
  intros Hlo Hv. unfold calculateParameterScore, range.
  cbn [JS.ge JS.le JS.lt].
  assert (E : Qle_bool v hi = false).
  { destruct (Qle_bool v hi) eqn:E; [| reflexivity].
    apply Qle_bool_iff in E. lra. }
  rewrite E, andb_false_r.
  apply Qltb_false in Hlo. rewrite Hlo. reflexivity.
Qed.

(** The penalty outside the range, for a distance [d]. *)
Lemma outside_penalty (d : Q) :
  (0 < d)%Q ->
  exists q, JS.max 20 (100 - JS.min (JS.Num (d * 5)) 80) = JS.Num q
            /\ (20 <= q)%Q /\ (q < 100)%Q
            /\ (d < 4 -> q == 100 - 5 * d)%Q.
Proof.
  intros Hd. qtests; eexists; (split; [reflexivity |]); lra.
Qed.

Lemma half_width_pos (lo hi : Q) : (lo < hi -> 0 < (hi - lo) / 2)%Q.
Proof. intros H. qconst. lra. Qed.



Lemma ratio_bounds (d h : Q) :
  (0 < h -> 0 <= d -> d <= h ->
   80 <= 100 - (d / h) * 20 /\ 100 - (d / h) * 20 <= 100)%Q.
Proof.
  intros Hh H0 H1.
  assert (Hlo : (0 <= d / h)%Q) by (apply Qle_shift_div_l; lra).
  assert (Hhi : (d / h <= 1)%Q) by (apply Qle_shift_div_r; lra).
  lra.
Qed.





(** Outside the range the score lies in [20,100), whatever the range. *)
Lemma score_outside (lo hi v : Q) :
  (v < lo \/ lo <= v /\ hi < v)%Q ->
  exists q d, sub_score lo hi v = JS.Num q
    /\ (d == if Qle_bool lo v then v - hi else lo - v)%Q
    /\ (20 <= q)%Q /\ (q < 100)%Q
    /\ (d < 4 -> q == 100 - 5 * d)%Q.
Proof.
  unfold sub_score. intros [Hv | [Hlo Hv]].
  - rewrite score_below by exact Hv.
    destruct (outside_penalty (lo - v)) as (q & Hq & Hb); [lra |].
    exists q, (lo - v)%Q. split; [exact Hq |]. split; [| exact Hb].
    destruct (Qle_bool lo v) eqn:E; [apply Qle_bool_iff in E; lra | reflexivity].
  - rewrite score_above by assumption.
    destruct (outside_penalty (v - hi)) as (q & Hq & Hb); [lra |].
    exists q, (v - hi)%Q. split; [exact Hq |]. split; [| exact Hb].
    apply Qle_bool_iff in Hlo. rewrite Hlo. reflexivity.
Qed.

(** With a non-degenerate range every finite value scores in [20,100]. *)
Lemma score_bounds (lo hi v : Q) :
  (lo < hi)%Q ->
  exists q, sub_score lo hi v = JS.Num q /\ (20 <= q)%Q /\ (q <= 100)%Q.
Proof.
  intros Hlh.
  destruct (Qlt_le_dec v lo) as [Hlo | Hlo].
  - destruct (score_outside lo hi v) as (q & d & Hq & _ & H20 & H100 & _);
      [now left |].
    exists q. repeat split; [exact Hq | lra | lra].
  - destruct (Qlt_le_dec hi v) as [Hhi | Hhi].
    + destruct (score_outside lo hi v) as (q & d & Hq & _ & H20 & H100 & _);
        [now right |].
      exists q. repeat split; [exact Hq | lra | lra].
    + unfold sub_score. rewrite score_inside by assumption.
      eexists. split; [reflexivity |].
      pose proof (half_width_pos lo hi Hlh) as Hh.
      destruct (ratio_bounds (Qabs (v - (lo + hi) / 2)) ((hi - lo) / 2)) as [A B];
        [exact Hh | apply Qabs_nonneg | | lra].
      apply Qabs_Qle_condition. qconst. split; lra.
Qed.





(** *** The overall score *)

Lemma round_bounds (m : Q) :
  (20 <= m)%Q -> (m <= 100)%Q ->
  (20 <= Qfloor (m + (1 # 2)) <= 100)%Z.
Proof.
  intros Hlo Hhi. split.
  - change 20%Z with (Qfloor (inject_Z 20)).
    apply Qfloor_resp_le. change (inject_Z 20) with 20%Q. lra.
  - pose proof (Qfloor_le (m + (1 # 2))) as H.
    assert (Hlt : (inject_Z (Qfloor (m + (1 # 2))) < inject_Z 101)%Q).
    { change (inject_Z 101) with 101%Q. lra. }
    rewrite <- Zlt_Qlt in Hlt. lia.
Qed.

Ltac params_fields :=
  cbn [p_soil_moisture p_soil_temperature p_air_temperature p_air_humidity
       optimal o_soil_moisture o_soil_temperature o_air_temperature
       o_air_humidity] in *.

(** The four sub-scores of [params], in the order of the source's array. *)
Lemma suitability_mean (params : Params) :
  finite_params params -> nondegenerate (optimal params) ->
  exists s1 s2 s3 s4 : Q,
    calculateParameterScore (p_soil_moisture params)
      (o_soil_moisture (optimal params)) = JS.Num s1
    /\ calculateParameterScore (p_soil_temperature params)
         (o_soil_temperature (optimal params)) = JS.Num s2
    /\ calculateParameterScore (p_air_temperature params)
         (o_air_temperature (optimal params)) = JS.Num s3
    /\ calculateParameterScore (p_air_humidity params)
         (o_air_humidity (optimal params)) = JS.Num s4
    /\ calculateCropSuitability params
       = JS.of_Z (Qfloor ((0 + s1 + s2 + s3 + s4) / 4 + (1 # 2)))
    /\ (20 <= (0 + s1 + s2 + s3 + s4) / 4)%Q
    /\ ((0 + s1 + s2 + s3 + s4) / 4 <= 100)%Q.
Proof.
  destruct params as [v1 v2 v3 v4 [r1 r2 r3 r4]].
  unfold finite_params, nondegenerate, is_finite, nondegenerate_range.
  params_fields.
  intros ([q1 ->] & [q2 ->] & [q3 ->] & [q4 ->]).
  intros ((l1 & h1 & -> & H1) & (l2 & h2 & -> & H2)
          & (l3 & h3 & -> & H3) & (l4 & h4 & -> & H4)).
  destruct (score_bounds l1 h1 q1 H1) as (s1 & E1 & A1 & B1).
  destruct (score_bounds l2 h2 q2 H2) as (s2 & E2 & A2 & B2).
  destruct (score_bounds l3 h3 q3 H3) as (s3 & E3 & A3 & B3).
  destruct (score_bounds l4 h4 q4 H4) as (s4 & E4 & A4 & B4).
  unfold sub_score in *. unfold calculateCropSuitability. params_fields.
  rewrite E1, E2, E3, E4.
  exists s1, s2, s3, s4. repeat (split; [reflexivity |]).
  change ((0 + s1 + s2 + s3 + s4) / 4)%Q
    with ((0 + s1 + s2 + s3 + s4) * (1 # 4))%Q.
  split; lra.
Qed.

Lemma suitability_bounds (params : Params) :
  finite_params params -> nondegenerate (optimal params) ->
  exists z : Z,
    calculateCropSuitability params = JS.of_Z z /\ (20 <= z <= 100)%Z.
Proof.
  intros Hf Hn.
  destruct (suitability_mean params Hf Hn)
    as (s1 & s2 & s3 & s4 & _ & _ & _ & _ & E & Hlo & Hhi).
  eexists. split; [exact E |]. now apply round_bounds.
Qed.



(** *** The built-in profiles *)

Lemma builtin_nondegenerate : Forall nondegenerate builtin_profiles.
Proof.
  repeat constructor; do 2 eexists; (split; [reflexivity | reflexivity]).
Qed.

Lemma params_of_reading_finite (r : Reading) (o : Optimal) :
  finite_params (params_of (sensor_of r) o).
Proof. repeat split; eexists; reflexivity. Qed.

Lemma builtin_score (r : Reading) (o : Optimal) :
  In o builtin_profiles ->
  exists z : Z,
    calculateCropSuitability (params_of (sensor_of r) o) = JS.of_Z z
    /\ (20 <= z <= 100)%Z.
Proof.
  intros Hin. apply suitability_bounds.
  - apply params_of_reading_finite.
  - pose proof builtin_nondegenerate as H.
    rewrite Forall_forall in H. now apply H.
Qed.

Lemma pushed_scores (r : Reading) :
  Forall (fun rec => exists z : Z,
            suitability_score rec = JS.of_Z z /\ (20 <= z <= 100)%Z)
         (pushed_recommendations (sensor_of r)).
Proof.
  unfold pushed_recommendations.
  repeat constructor; cbn [suitability_score]; apply builtin_score;
    unfold builtin_profiles; simpl; tauto.
Qed.

(** *** C8: degenerate ranges *)

(** The score in terms of the denominator its division is evaluated on. *)
Lemma score_by_denominator (v lo hi : JS.number) :
  calculateParameterScore v (lo, hi)
  = match division_denominator v (lo, hi) with
    | Some d => 100 - (JS.abs (v - (lo + hi) / 2) / d) * 20
    | None =>
        JS.max 20
          (100 - JS.min ((if v <? lo then lo - v else v - hi) * 5) 80)
    end.
Proof.
  unfold calculateParameterScore, division_denominator.
  destruct ((v >=? lo) && (v <=? hi)); reflexivity.
Qed.








End CropFacts.

(** ** Sorting the recommendations *)

Module SortFacts.
Import Crop.

Section Generic.
Context {A : Type} (comparefn : A -> A -> JS.number).

Lemma sort_insert_perm (x : A) (l : list A) :
  Permutation (x :: l) (sort_insert comparefn x l).
Proof.
  induction l as [| y l IH]; cbn [sort_insert]; [reflexivity |].
  destruct (SortCompare comparefn x y <=? 0); [reflexivity |].
  rewrite perm_swap. now apply perm_skip.
Qed.

Lemma Array_sort_perm (l : list A) :
  Permutation l (Array_sort comparefn l).
Proof.
  induction l as [| x l IH]; cbn [Array_sort fold_right]; [reflexivity |].
  rewrite <- sort_insert_perm. now apply perm_skip.
Qed.

(** Insertion keeps the order of the elements a predicate selects, when
    no two selected elements compare above zero. *)
Lemma sort_insert_filter (p : A -> bool) (x : A) (l : list A) :
  (forall y, p x = true -> p y = true ->
             (SortCompare comparefn x y <=? 0) = true) ->
  filter p (sort_insert comparefn x l) = filter p (x :: l).
Proof.
  intros Hp. induction l as [| y l IH]; cbn [sort_insert]; [reflexivity |].
  destruct (SortCompare comparefn x y <=? 0) eqn:E; [reflexivity |].
  cbn [filter] in *. rewrite IH.
  destruct (p x) eqn:Px; [| reflexivity].
  destruct (p y) eqn:Py; [| reflexivity].
  rewrite (Hp y eq_refl Py) in E. discriminate.
Qed.

Lemma Array_sort_filter (p : A -> bool) (l : list A) :
  (forall x y, p x = true -> p y = true ->
               (SortCompare comparefn x y <=? 0) = true) ->
  filter p (Array_sort comparefn l) = filter p l.
Proof.
  intros Hp. induction l as [| x l IH]; cbn [Array_sort fold_right];
    [reflexivity |].
  rewrite sort_insert_filter by (intros y; apply Hp).
  cbn [filter]. fold (Array_sort comparefn l). now rewrite IH.
Qed.
End Generic.

(** Two records of one finite score compare as equal. *)
Lemma same_score_compare (q : Q) (x y : CropRecommendation) :
  has_score q x = true -> has_score q y = true ->
  (SortCompare by_score_descending x y <=? 0) = true.
Proof.
  unfold has_score, SortCompare, by_score_descending.
  destruct (suitability_score x) as [a | | |]; try discriminate.
  destruct (suitability_score y) as [b | | |]; try discriminate.
  intros Ha Hb. apply Qeq_bool_iff in Ha, Hb.
  cbn. apply Qle_bool_iff. lra.
Qed.

(** Stability: records of one score keep their order. *)
Lemma sort_stable (q : Q) (l : list CropRecommendation) :
  filter (has_score q) (Array_sort by_score_descending l)
  = filter (has_score q) l.
Proof.
  apply Array_sort_filter. intros x y. apply same_score_compare.
Qed.

Lemma le_trans (x y z : JS.number) :
  (x <=? y) = true -> (y <=? z) = true -> (x <=? z) = true.
Proof.
  destruct x, y, z; cbn; try discriminate; try reflexivity.
  rewrite !Qle_bool_iff. apply Qle_trans.
Qed.

Lemma descending_trans (a b c : CropRecommendation) :
  descending a b -> descending b c -> descending a c.
Proof.
  unfold descending. intros Hab Hbc. exact (le_trans _ _ _ Hbc Hab).
Qed.

(** Between two finite scores the comparator decides the order. *)
Lemma compare_finite (x y : CropRecommendation) :
  is_finite (suitability_score x) -> is_finite (suitability_score y) ->
  if SortCompare by_score_descending x y <=? 0
  then descending x y else descending y x.
Proof.
  unfold SortCompare, by_score_descending, descending.
  intros [a ->] [b ->]. qtests; first [reflexivity | exfalso; lra].
Qed.

Lemma compare_scores (x y : CropRecommendation) (a b : Q) :
  suitability_score x = JS.Num a -> suitability_score y = JS.Num b ->
  (SortCompare by_score_descending x y <=? 0) = Qle_bool b a.
Proof.
  unfold SortCompare, by_score_descending. intros -> ->.
  qtests; first [reflexivity | exfalso; lra].
Qed.

Lemma sort_insert_hdrel (y x : CropRecommendation) (l : list CropRecommendation) :
  descending y x -> HdRel descending y l ->
  HdRel descending y (sort_insert by_score_descending x l).
Proof.
  intros Hyx Hl. destruct l as [| z l]; cbn [sort_insert].
  - now constructor.
  - destruct (SortCompare by_score_descending x z <=? 0).
    + now constructor.
    + constructor. now inversion Hl.
Qed.

Lemma sort_insert_sorted (x : CropRecommendation) (l : list CropRecommendation) :
  is_finite (suitability_score x) -> finite_scores l ->
  Sorted descending l ->
  Sorted descending (sort_insert by_score_descending x l).
Proof.
  intros Hx Hf Hs. induction Hs as [| y l Hs IH Hd]; cbn [sort_insert].
  - repeat constructor.
  - inversion Hf as [| ? ? Hy Hf']; subst.
    pose proof (compare_finite x y Hx Hy) as Hc.
    destruct (SortCompare by_score_descending x y <=? 0).
    + constructor; [now constructor | now constructor].
    + constructor; [now apply IH | now apply sort_insert_hdrel].
Qed.

Lemma Array_sort_finite (l : list CropRecommendation) :
  finite_scores l -> finite_scores (Array_sort by_score_descending l).
Proof.
  unfold finite_scores. intros Hf.
  eapply Permutation_Forall; [apply Array_sort_perm | exact Hf].
Qed.

Lemma Array_sort_sorted (l : list CropRecommendation) :
  finite_scores l ->
  StronglySorted descending (Array_sort by_score_descending l).
Proof.
  intros Hf. apply Sorted_StronglySorted.
  - intros a b c. apply descending_trans.
  - induction Hf as [| x l Hx Hf IH]; cbn [Array_sort fold_right].
    + constructor.
    + apply sort_insert_sorted; [exact Hx | | exact IH].
      now apply Array_sort_finite.
Qed.

(** C7: whatever the complete reading, the recommendations come out as a
    permutation of the five pushed records, sorted by descending score, and
    records of equal score keep the order in which they were pushed; three
    records scoring 70, 90 and 90, in that input order, come out as the two
    of score 90 in their input order and then the one of score 70. *)
Theorem recommendations_sorted_stable
    (r : Reading) (P1 P2 P3 : CropRecommendation) :
  suitability_score P1 ~= JS.Num 90 ->
  suitability_score P2 ~= JS.Num 90 ->
  suitability_score P3 ~= JS.Num 70 ->
  Permutation (pushed_recommendations (sensor_of r))
              (generateCropRecommendations (sensor_of r))
  /\ StronglySorted descending (generateCropRecommendations (sensor_of r))
  /\ (forall q : Q,
        filter (has_score q) (generateCropRecommendations (sensor_of r))
        = filter (has_score q) (pushed_recommendations (sensor_of r)))
  /\ Array_sort by_score_descending [P3; P1; P2] = [P1; P2; P3].
Proof.
  intros H1 H2 H3. unfold generateCropRecommendations.
  split; [apply Array_sort_perm |].
  split.
  { apply Array_sort_sorted. unfold finite_scores.
    eapply Forall_impl; [| apply CropFacts.pushed_scores].
    intros rec (z & Hz & _). eexists. exact Hz. }
  split; [intros q; apply sort_stable |].
  destruct (suitability_score P1) as [a | | |] eqn:E1; try contradiction.
  destruct (suitability_score P2) as [b | | |] eqn:E2; try contradiction.
  destruct (suitability_score P3) as [c | | |] eqn:E3; try contradiction.
  cbn [JS.eqv] in H1, H2, H3.
  cbn [Array_sort fold_right sort_insert].
  rewrite (compare_scores P1 P2 a b E1 E2).
  replace (Qle_bool b a) with true by (symmetry; apply Qle_bool_iff; lra).
  cbn [sort_insert].
  rewrite (compare_scores P3 P1 c a E3 E1).
  replace (Qle_bool a c) with false
    by (symmetry; apply not_true_is_false; rewrite Qle_bool_iff; lra).
  rewrite (compare_scores P3 P2 c b E3 E2).
  replace (Qle_bool b c) with false
    by (symmetry; apply not_true_is_false; rewrite Qle_bool_iff; lra).
  reflexivity.
Qed.

Lemma recommendations_sorted_stable_witness :
  map crop_type
    (Array_sort by_score_descending
       [scored "P3" 70%Q; scored "P1" 90%Q; scored "P2" 90%Q])
  = ["P1"; "P2"; "P3"]
  /\ map crop_type
       (generateCropRecommendations (sensor_of (mkReading 50 20 22 60 0)))
     = ["Tomatoes"; "Carrots"; "Lettuce"; "Peppers"; "Spinach"].
Proof.
  assert (H90 : JS.Num 90 ~= JS.Num 90) by reflexivity.
  assert (H70 : JS.Num 70 ~= JS.Num 70) by reflexivity.
  destruct (recommendations_sorted_stable (mkReading 50 20 22 60 0)
              (scored "P1" 90%Q) (scored "P2" 90%Q) (scored "P3" 70%Q)
              H90 H90 H70)
    as (_ & _ & _ & E).
  split; [rewrite E; reflexivity | vm_compute; reflexivity].
Defined.

End SortFacts.

(** ** Automatic control *)

Module AutoControlFacts.
Import AutoControl.

Lemma next_fault_tables (s : Store) :
  sensor_readings (snd (next_fault s)) = sensor_readings s
  /\ motor_control (snd (next_fault s)) = motor_control s.
Proof. unfold next_fault. destruct (faults s); split; reflexivity. Qed.

(** Every complete reading has a reason text: no [toFixed] throws. *)
Lemma reason_of_complete (r : Reading) (shouldActivate : bool) :
  exists why, generateAutoControlReason (sensor_of r) shouldActivate = Some why.
Proof.
  unfold generateAutoControlReason, sensor_of, toFixed, bind.
  cbn [soil_moisture air_temperature air_humidity rainfall JS.to_number].
  repeat match goal with
  | |- context [if ?b then _ else _] => destruct b
  end; eexists; reflexivity.
Qed.

Lemma select_sensor_spec (s : Store) :
  sensor_readings (snd (select_latest sensor_readings s)) = sensor_readings s
  /\ motor_control (snd (select_latest sensor_readings s)) = motor_control s
  /\ (fst (select_latest sensor_readings s) = Error
      \/ exists sd rest, sensor_readings s = sd :: rest
           /\ fst (select_latest sensor_readings s) = Data sd).
Proof.
  unfold select_latest. destruct (next_fault_tables s) as [Hs Hm].
  destruct (next_fault s) as [[|] s']; cbn [fst snd] in *; auto.
  destruct (sensor_readings s') as [| sd rest] eqn:E; cbn [fst snd];
    (split; [congruence |]); (split; [exact Hm |]); [now left | right].
  exists sd, rest. split; [congruence | reflexivity].
Qed.

Lemma select_motor_spec (s : Store) :
  sensor_readings (snd (select_latest motor_control s)) = sensor_readings s
  /\ motor_control (snd (select_latest motor_control s)) = motor_control s
  /\ (fst (select_latest motor_control s) = Error
      \/ exists cur log, motor_control s = cur :: log
           /\ fst (select_latest motor_control s) = Data cur).
Proof.
  unfold select_latest. destruct (next_fault_tables s) as [Hs Hm].
  destruct (next_fault s) as [[|] s']; cbn [fst snd] in *; auto.
  destruct (motor_control s') as [| cur log] eqn:E; cbn [fst snd];
    (split; [exact Hs |]); (split; [congruence |]); [now left | right].
  exists cur, log. split; [congruence | reflexivity].
Qed.

Lemma insert_motor_spec (row : MotorRecord) (s : Store) :
  sensor_readings (snd (insert_motor row s)) = sensor_readings s
  /\ (motor_control (snd (insert_motor row s)) = motor_control s
      \/ motor_control (snd (insert_motor row s)) = row :: motor_control s).
Proof.
  unfold insert_motor. destruct (next_fault_tables s) as [Hs Hm].
  destruct (next_fault s) as [[|] s']; cbn [fst snd sensor_readings motor_control] in *.
  - auto.
  - rewrite Hm. auto.
Qed.

(** What one request does to the two tables. *)
Lemma POST_tables (s : Store) :
  sensor_readings (snd (POST s)) = sensor_readings s
  /\ (motor_control (snd (POST s)) = motor_control s
      \/ exists sd rest cur log why,
           sensor_readings s = sd :: rest
           /\ motor_control s = cur :: log
           /\ mode cur = "automatic"
           /\ determineMotorAction sd <> status cur
           /\ generateAutoControlReason sd (determineMotorAction sd) = Some why
           /\ motor_control (snd (POST s))
              = system_record (determineMotorAction sd) why :: motor_control s).
Proof.
  unfold POST.
  destruct (select_sensor_spec s) as (Hs1 & Hm1 & H1).
  destruct (select_latest sensor_readings s) as [sensor s1].
  cbn [fst snd] in *.
  destruct H1 as [-> | (sd & rest & Hsd & ->)]; [cbn [snd]; auto |].
  destruct (select_motor_spec s1) as (Hs2 & Hm2 & H2).
  destruct (select_latest motor_control s1) as [motor s2].
  cbn [fst snd] in *.
  rewrite Hs1 in Hs2. rewrite Hm1 in Hm2, H2.
  destruct H2 as [-> | (cur & log & Hcur & ->)]; [cbn [snd]; auto |].
  destruct (mode cur =? "automatic")%string eqn:Emode; cbn [negb];
    [| cbn [snd]; auto].
  apply String.eqb_eq in Emode.
  destruct (Bool.eqb (determineMotorAction sd) (status cur)) eqn:Eeq;
    cbn [negb]; [cbn [snd]; auto |].
  apply eqb_false_iff in Eeq.
  destruct (generateAutoControlReason sd (determineMotorAction sd))
    as [why |] eqn:Ewhy; [| cbn [snd]; auto].
  destruct (insert_motor_spec (system_record (determineMotorAction sd) why) s2)
    as (Hs3 & H3).
  unfold system_record in *.
  destruct (insert_motor _ s2) as [[newMotorData |] s3]; cbn [fst snd] in *.
  all: rewrite Hs2 in Hs3; rewrite Hm2 in H3; split; [exact Hs3 |].
  all: destruct H3 as [H3 | H3]; [left; exact H3 |].
  all: right; exists sd, rest, cur, log, why; rewrite <- Hcur; auto 10.
Qed.

Lemma cons_neq {A : Type} (x : A) (l : list A) : l <> x :: l.
Proof.
  intros H. apply (f_equal (@List.length A)) in H. cbn in H. lia.
Qed.

(** A request on a store none of whose queries fails. *)
Lemma POST_no_fault (sd : SensorData) (rest : list SensorData)
    (cur : MotorRecord) (log : list MotorRecord) :
  mode cur = "automatic" ->
  let s := mkStore (sd :: rest) (cur :: log) [] in
  let decision := determineMotorAction sd in
  POST s
  = if negb (Bool.eqb decision (status cur)) then
      match generateAutoControlReason sd decision with
      | None => (Failed "Internal server error", s)
      | Some why =>
          (Switched (if decision then "activated" else "deactivated") why
             (soil_moisture sd) (air_temperature sd) (air_humidity sd)
             (system_record decision why),
           mkStore (sd :: rest) (system_record decision why :: cur :: log) [])
      end
    else
      (NoAction (status cur)
         (soil_moisture sd) (air_temperature sd) (air_humidity sd), s).
Proof.
  intros Hmode. unfold POST, select_latest, next_fault, insert_motor.
  cbn [faults sensor_readings motor_control]. rewrite Hmode.
  cbn [String.eqb Ascii.eqb Bool.eqb negb].
  destruct (negb (Bool.eqb (determineMotorAction sd) (status cur)));
    [| reflexivity].
  destruct (generateAutoControlReason sd (determineMotorAction sd));
    reflexivity.
Qed.

(** ** C4: the rules fire in the order of the source *)

(** C4: rainfall above 1 mm decides off, even on dry soil; otherwise
    moisture below 30 decides on; otherwise moisture above 60 decides off;
    otherwise moisture below 40 with air above 30 degrees and humidity below
    50 decides on. *)
Theorem rules_in_priority_order (r : Reading) :
  ((1 < r_rainfall r)%Q -> determineMotorAction (sensor_of r) = false)
  /\ ((r_rainfall r <= 1)%Q -> (r_soil_moisture r < 30)%Q ->
      determineMotorAction (sensor_of r) = true)
  /\ ((r_rainfall r <= 1)%Q -> (30 <= r_soil_moisture r)%Q ->
      (60 < r_soil_moisture r)%Q ->
      determineMotorAction (sensor_of r) = false)
  /\ ((r_rainfall r <= 1)%Q -> (30 <= r_soil_moisture r)%Q ->
      (r_soil_moisture r <= 60)%Q ->
      (r_soil_moisture r < 40)%Q -> (30 < r_air_temperature r)%Q ->
      (r_air_humidity r < 50)%Q ->
      determineMotorAction (sensor_of r) = true)
  /\ (forall st at_ ah : Q,
        determineMotorAction (sensor_of (mkReading 15 st at_ ah 2)) = false)
  /\ (forall st : Q,
        determineMotorAction (sensor_of (mkReading 35 st 32 45 0)) = true).
Proof.
  destruct r as [sm st at_ ah rain].
  unfold determineMotorAction, sensor_of.
  cbn [soil_moisture air_temperature air_humidity rainfall JS.to_number
       r_soil_moisture r_air_temperature r_air_humidity r_rainfall].
  repeat split; intros; qtests;
    cbn [andb]; first [reflexivity | exfalso; lra].
Qed.

Lemma rules_in_priority_order_witness :
  determineMotorAction (sensor_of (mkReading 15 20 25 60 2)) = false
  /\ determineMotorAction (sensor_of (mkReading 18 20 25 60 0)) = true
  /\ determineMotorAction (sensor_of (mkReading 65 20 25 60 0)) = false
  /\ determineMotorAction (sensor_of (mkReading 35 20 32 45 0)) = true.
Proof.
  destruct (rules_in_priority_order (mkReading 15 20 25 60 2)) as (R1 & _).
  destruct (rules_in_priority_order (mkReading 18 20 25 60 0)) as (_ & R2 & _).
  destruct (rules_in_priority_order (mkReading 65 20 25 60 0))
    as (_ & _ & R3 & _).
  destruct (rules_in_priority_order (mkReading 35 20 32 45 0))
    as (_ & _ & _ & R4 & _).
  cbn [r_soil_moisture r_air_temperature r_air_humidity r_rainfall] in *.
  split; [apply R1; reflexivity |].
  split; [apply R2; [discriminate | reflexivity] |].
  split; [apply R3; [discriminate | discriminate | reflexivity] |].
  apply R4; first [discriminate | reflexivity].
Defined.

(** ** C1: the default of the policy *)

Lemma hold_zone_false (r : Reading) :
  (30 <= r_soil_moisture r)%Q -> (r_soil_moisture r <= 60)%Q ->
  (r_rainfall r <= 1)%Q ->
  ~ ((r_soil_moisture r < 40)%Q /\ (30 < r_air_temperature r)%Q
     /\ (r_air_humidity r < 50)%Q) ->
  determineMotorAction (sensor_of r) = false.
Proof.
  destruct r as [sm st at_ ah rain].
  unfold determineMotorAction, sensor_of.
  cbn [soil_moisture air_temperature air_humidity rainfall JS.to_number
       r_soil_moisture r_air_temperature r_air_humidity r_rainfall].
  intros. qtests; cbn [andb]; first [reflexivity | exfalso; lra | tauto].
Qed.

(** C1: where no rule fires the code does not hold the current state: the
    decision is off whatever the motor does, and a running motor in
    automatic mode is switched off by a new record. *)
Theorem hold_zone_decides_off (r : Reading) (rest : list SensorData)
    (cur : MotorRecord) (log : list MotorRecord) :
  (30 <= r_soil_moisture r)%Q -> (r_soil_moisture r <= 60)%Q ->
  (r_rainfall r <= 1)%Q ->
  ~ ((r_soil_moisture r < 40)%Q /\ (30 < r_air_temperature r)%Q
     /\ (r_air_humidity r < 50)%Q) ->
  determineMotorAction (sensor_of r) = false
  /\ (status cur = true -> mode cur = "automatic" ->
      snd (POST (mkStore (sensor_of r :: rest) (cur :: log) []))
      = mkStore (sensor_of r :: rest)
          (system_record false
             (BasedOnReadings (JS.Num (r_soil_moisture r))
                (JS.Num (r_air_temperature r)))
           :: cur :: log) []).
Proof.
  intros Hlo Hhi Hrain Hdry.
  pose proof (hold_zone_false r Hlo Hhi Hrain Hdry) as Hoff.
  split; [exact Hoff |].
  intros Hon Hmode. rewrite POST_no_fault by exact Hmode.
  rewrite Hoff, Hon. cbn [Bool.eqb negb].
  destruct r as [sm st at_ ah rain].
  unfold generateAutoControlReason, sensor_of, toFixed, bind.
  cbn [soil_moisture air_temperature air_humidity rainfall JS.to_number
       r_soil_moisture r_air_temperature r_air_humidity r_rainfall] in *.
  qtests; first [reflexivity | exfalso; lra].
Qed.

Lemma hold_zone_decides_off_witness :
  determineMotorAction (sensor_of (mkReading 50 20 22 60 0)) = false
  /\ motor_control
       (snd (POST (mkStore [sensor_of (mkReading 50 20 22 60 0)]
                     [running_record] [])))
     = [ system_record false (BasedOnReadings (JS.Num 50) (JS.Num 22));
         running_record ].
Proof.
  destruct (hold_zone_decides_off (mkReading 50 20 22 60 0) []
              running_record [])
    as (Hoff & Hpost).
  - discriminate.
  - discriminate.
  - discriminate.
  - cbn. intros (H & _). discriminate H.
  - split; [exact Hoff |].
    rewrite Hpost; reflexivity.
Defined.

(** ** C5: one record per change of decision *)

(** C5: a request appends at most one record; it appends one only if the
    decision differs from the status of the newest record; when the two are
    equal it appends none; when they differ, the mode is automatic, the
    reading is complete and no query fails, it appends the record of the
    decision; and two requests in a row over the same readings append at
    most one record between them. *)
Theorem appends_iff_decision_differs (s : Store) :
  (motor_control (snd (POST s)) = motor_control s
   \/ exists row, motor_control (snd (POST s)) = row :: motor_control s)
  /\ (forall row,
        motor_control (snd (POST s)) = row :: motor_control s ->
        exists sd cur,
          hd_error (sensor_readings s) = Some sd
          /\ latest s = Some cur
          /\ mode cur = "automatic"
          /\ determineMotorAction sd <> status cur
          /\ status row = determineMotorAction sd)
  /\ (forall sd cur,
        hd_error (sensor_readings s) = Some sd -> latest s = Some cur ->
        determineMotorAction sd = status cur ->
        motor_control (snd (POST s)) = motor_control s)
  /\ (forall r cur,
        hd_error (sensor_readings s) = Some (sensor_of r) ->
        latest s = Some cur -> mode cur = "automatic" -> faults s = [] ->
        determineMotorAction (sensor_of r) <> status cur ->
        exists why,
          motor_control (snd (POST s))
          = system_record (determineMotorAction (sensor_of r)) why
            :: motor_control s)
  /\ (List.length (motor_control (snd (POST (snd (POST s)))))
      <= S (List.length (motor_control s)))%nat.
Proof.
  destruct (POST_tables s) as (Hsens & Hlog).
  split; [| split; [| split; [| split]]].
  - destruct Hlog as [H | (sd & rest & cur & log & why & _ & _ & _ & _ & _ & H)];
      [now left | right; eauto].
  - intros row Hrow.
    destruct Hlog as [H | (sd & rest & cur & log & why & Hs & Hm & Hmode & Hne & _ & H)].
    + rewrite H in Hrow. now apply cons_neq in Hrow.
    + exists sd, cur. unfold latest. rewrite Hs, Hm. cbn [hd_error].
      repeat split; try assumption.
      rewrite H in Hrow. now inversion Hrow.
  - intros sd cur Hsd Hcur Heq.
    destruct Hlog as [H | (sd' & rest & cur' & log & why & Hs & Hm & _ & Hne & _ & _)];
      [exact H |].
    unfold latest in Hcur. rewrite Hs in Hsd. rewrite Hm in Hcur.
    cbn [hd_error] in *. congruence.
  - intros r cur Hsd Hcur Hmode Hfl Hne.
    destruct s as [[| sd rest] [| cur' log] fl];
      unfold latest in Hcur; cbn [hd_error sensor_readings motor_control faults] in *;
      try discriminate.
    inversion Hsd; inversion Hcur; subst.
    rewrite POST_no_fault by exact Hmode.
    apply eqb_false_iff in Hne. rewrite Hne. cbn [negb].
    destruct (reason_of_complete r (determineMotorAction (sensor_of r)))
      as [why Hwhy].
    rewrite Hwhy. exists why. reflexivity.
  - destruct (POST_tables (snd (POST s))) as (Hsens' & Hlog').
    destruct Hlog' as [H' | (sd' & rest' & cur' & log' & why' & Hs' & Hm' & _ & Hne' & _ & _)].
    + rewrite H'.
      destruct Hlog as [H | (sd & rest & cur & log & why & _ & _ & _ & _ & _ & H)];
        rewrite H; cbn [List.length]; lia.
    + destruct Hlog as [H | (sd & rest & cur & log & why & Hs & _ & _ & _ & _ & H)].
      * destruct (POST_tables (snd (POST s))) as (_ & [E | (? & ? & ? & ? & ? & _ & _ & _ & _ & _ & E)]);
          rewrite E, H; cbn [List.length]; lia.
      * exfalso. rewrite Hsens, Hs in Hs'. rewrite H in Hm'.
        inversion Hs'; inversion Hm'; subst. now apply Hne'.
Qed.

Lemma appends_iff_decision_differs_witness :
  (exists why,
     motor_control (snd (POST dry_store))
     = [system_record true why; initial_record])
  /\ motor_control (snd (POST (snd (POST dry_store))))
     = motor_control (snd (POST dry_store)).
Proof.
  destruct (appends_iff_decision_differs dry_store) as (_ & _ & _ & Hif & _).
  destruct (Hif (mkReading 18 20 25 60 0) initial_record) as [why Hwhy];
    try reflexivity; [discriminate |].
  destruct (appends_iff_decision_differs (snd (POST dry_store)))
    as (_ & _ & Hnoop & _).
  split; [exists why; exact Hwhy |].
  apply (Hnoop (sensor_of (mkReading 18 20 25 60 0))
               (system_record true (CriticalMoisture (JS.Num 18))));
    reflexivity.
Defined.

(** ** C9: manual mode *)

Lemma not_automatic_unchanged (s : Store) (cur : MotorRecord) :
  latest s = Some cur -> mode cur <> "automatic" ->
  motor_control (snd (POST s)) = motor_control s.
Proof.
  intros Hcur Hmode.
  destruct (POST_tables s)
    as (_ & [H | (sd & rest & cur' & log & why & _ & Hm & Hauto & _)]);
    [exact H |].
  unfold latest in Hcur. rewrite Hm in Hcur. cbn in Hcur. congruence.
Qed.


Lemma not_automatic_runs (n : nat) (s : Store) (cur : MotorRecord) :
  latest s = Some cur -> mode cur <> "automatic" ->
  motor_control (auto_control_runs n s) = motor_control s.
Proof.
  revert s. induction n as [| n IH]; intros s Hcur Hmode; [reflexivity |].
  cbn [auto_control_runs].
  pose proof (not_automatic_unchanged s cur Hcur Hmode) as H.
  rewrite IH with (s := snd (POST s)); [exact H | | exact Hmode].
  unfold latest in *. now rewrite H.
Qed.



(** ** C2: readings with missing fields *)






End AutoControlFacts.

(** * Further properties *)

(** ** The reason texts of the automatic control *)

Module ReasonFacts.
Import AutoControl.

Ltac reading_fields :=
  cbn [soil_moisture soil_temperature air_temperature air_humidity rainfall
       JS.to_number r_soil_moisture r_soil_temperature r_air_temperature
       r_air_humidity r_rainfall] in *.

(** X1: for a complete reading the reason built for the policy's own
    decision names the rule that decided; the text that only quotes the
    readings is built in the hold zone. *)
Theorem reason_names_the_rule (r : Reading) :
  let sd := sensor_of r in
  let why := generateAutoControlReason sd (determineMotorAction sd) in
  ((1 < r_rainfall r)%Q ->
   why = Some (DueToRainfall (JS.Num (r_rainfall r))))
  /\ ((r_rainfall r <= 1)%Q -> (r_soil_moisture r < 20)%Q ->
      why = Some (CriticalMoisture (JS.Num (r_soil_moisture r))))
  /\ ((r_rainfall r <= 1)%Q -> (20 <= r_soil_moisture r)%Q ->
      (r_soil_moisture r < 30)%Q ->
      why = Some (LowMoisture (JS.Num (r_soil_moisture r))))
  /\ ((r_rainfall r <= 1)%Q -> (30 <= r_soil_moisture r)%Q ->
      (r_soil_moisture r < 40)%Q -> (30 < r_air_temperature r)%Q ->
      (r_air_humidity r < 50)%Q ->
      why = Some (HotAndDry (JS.Num (r_air_temperature r))
                    (JS.Num (r_air_humidity r))))
  /\ ((r_rainfall r <= 1)%Q -> (60 < r_soil_moisture r)%Q ->
      (r_soil_moisture r <= 70)%Q ->
      why = Some (AdequateMoisture (JS.Num (r_soil_moisture r))))
  /\ ((r_rainfall r <= 1)%Q -> (70 < r_soil_moisture r)%Q ->
      why = Some (HighMoisture (JS.Num (r_soil_moisture r))))
  /\ (no_rule_fires r ->
      why = Some (BasedOnReadings (JS.Num (r_soil_moisture r))
                    (JS.Num (r_air_temperature r)))).
Proof.
  destruct r as [sm st at_ ah rain].
  unfold no_rule_fires, generateAutoControlReason, determineMotorAction,
    sensor_of, toFixed, bind.
  reading_fields.
  repeat split; intros; qtests; cbn [andb];
    first [reflexivity | exfalso; lra | exfalso; tauto].
Qed.

Lemma reason_names_the_rule_witness :
  generateAutoControlReason (sensor_of (mkReading 18 20 25 60 0))
    (determineMotorAction (sensor_of (mkReading 18 20 25 60 0)))
  = Some (CriticalMoisture (JS.Num 18))
  /\ generateAutoControlReason (sensor_of (mkReading 50 20 22 60 0))
       (determineMotorAction (sensor_of (mkReading 50 20 22 60 0)))
     = Some (BasedOnReadings (JS.Num 50) (JS.Num 22)).
Proof.
  destruct (reason_names_the_rule (mkReading 18 20 25 60 0))
    as (_ & Hcrit & _).
  destruct (reason_names_the_rule (mkReading 50 20 22 60 0))
    as (_ & _ & _ & _ & _ & _ & Hhold).
  split.
  - apply Hcrit; [discriminate | reflexivity].
  - apply Hhold. unfold no_rule_fires. cbn.
    repeat split; try discriminate. intros (H & _). discriminate H.
Defined.



End ReasonFacts.

(** ** The automatic-control request and the log *)

Module RequestFacts.
Import AutoControl AutoControlFacts.

(** The answer of one request against what it did to the log. *)
Lemma POST_answer (s : Store) :
  match fst (POST s) with
  | Switched action why _ _ _ new =>
      motor_control (snd (POST s)) = new :: motor_control s
      /\ new = system_record (status new) why
      /\ action = (if status new then "activated" else "deactivated")
      /\ exists sd rest cur log,
           sensor_readings s = sd :: rest
           /\ motor_control s = cur :: log
           /\ status new = determineMotorAction sd
  | Failed err =>
      motor_control (snd (POST s)) = motor_control s
      /\ (err = "Failed to fetch sensor data"
          \/ (sensor_readings s <> []
              /\ (err = "Failed to fetch motor status"
                  \/ (motor_control s <> []
                      /\ (err = "Internal server error"
                          \/ err = "Failed to update motor status")))))
  | ManualMode st | NoAction st _ _ _ =>
      motor_control (snd (POST s)) = motor_control s
      /\ exists sd rest cur,
           sensor_readings s = sd :: rest
           /\ latest s = Some cur /\ status cur = st
  end.
Proof.
  unfold POST.
  destruct (select_sensor_spec s) as (Hs1 & Hm1 & H1).
  destruct (select_latest sensor_readings s) as [sensor s1].
  cbn [fst snd] in *.
  destruct H1 as [-> | (sd & rest & Hsd & ->)]; [cbn [fst snd]; auto |].
  assert (Hne : sensor_readings s <> []) by (rewrite Hsd; discriminate).
  destruct (select_motor_spec s1) as (Hs2 & Hm2 & H2).
  destruct (select_latest motor_control s1) as [motor s2].
  cbn [fst snd] in *.
  rewrite Hm1 in Hm2, H2.
  destruct H2 as [-> | (cur & log & Hcur & ->)]; [cbn [fst snd]; auto 6 |].
  assert (Hne' : motor_control s <> []) by (rewrite Hcur; discriminate).
  assert (Hlatest : latest s = Some cur) by (unfold latest; now rewrite Hcur).
  destruct (mode cur =? "automatic")%string; cbn [negb fst snd];
    [| eauto 7].
  destruct (Bool.eqb (determineMotorAction sd) (status cur));
    cbn [negb fst snd]; [eauto 7 |].
  destruct (generateAutoControlReason sd (determineMotorAction sd))
    as [why |]; [| cbn [fst snd]; auto 10].
  unfold insert_motor.
  destruct (next_fault_tables s2) as [_ Hm3].
  destruct (next_fault s2) as [[|] s3]; cbn [fst snd motor_control] in *.
  - split; [congruence | auto 10].
  - rewrite Hm3, Hm2. split; [reflexivity |]. split; [reflexivity |].
    split; [reflexivity |]. exists sd, rest, cur, log. auto.
Qed.

(** X3: with no reading the request answers that the sensor data could not
    be fetched; with an empty log it answers an error as well and seeds no
    record: the log stays empty. *)
Theorem empty_tables_are_errors (s : Store) :
  (sensor_readings s = [] ->
   fst (POST s) = Failed "Failed to fetch sensor data"
   /\ motor_control (snd (POST s)) = motor_control s)
  /\ (motor_control s = [] ->
      motor_control (snd (POST s)) = []
      /\ (fst (POST s) = Failed "Failed to fetch sensor data"
          \/ fst (POST s) = Failed "Failed to fetch motor status")).
Proof.
  pose proof (POST_answer s) as H. unfold latest in H. split.
  - intros Hs.
    destruct (fst (POST s)) as [err | st | a w x y z new | st x y z].
    + destruct H as (Hlog & [-> | (Hne & _)]); [auto | contradiction].
    + destruct H as (_ & sd & rest & cur & E & _). congruence.
    + destruct H as (_ & _ & _ & sd & rest & cur & log & E & _). congruence.
    + destruct H as (_ & sd & rest & cur & E & _). congruence.
  - intros Hm. rewrite Hm in H.
    destruct (fst (POST s)) as [err | st | a w x y z new | st x y z].
    + destruct H as (Hlog & [-> | (_ & [-> | (Hne & _)])]);
        [auto | auto | contradiction].
    + destruct H as (_ & sd & rest & cur & _ & E & _). discriminate E.
    + destruct H as (_ & _ & _ & sd & rest & cur & log & _ & E & _).
      discriminate E.
    + destruct H as (_ & sd & rest & cur & _ & E & _). discriminate E.
Qed.

(** X4: the answer agrees with the log.  It reports a switch exactly when a
    record was appended, the record it shows is the newest of the log and
    carries the decision, and the action names the record's status; every
    other answer leaves the log as it was. *)
Theorem answer_agrees_with_log (s : Store) :
  match fst (POST s) with
  | Switched action why _ _ _ new =>
      latest (snd (POST s)) = Some new
      /\ motor_control (snd (POST s)) = new :: motor_control s
      /\ new = system_record (status new) why
      /\ action = (if status new then "activated" else "deactivated")
      /\ exists sd, hd_error (sensor_readings s) = Some sd
                    /\ status new = determineMotorAction sd
  | _ => motor_control (snd (POST s)) = motor_control s
  end.
Proof.
  pose proof (POST_answer s) as H.
  destruct (fst (POST s)) as [err | st | a w x y z new | st x y z];
    try (destruct H as (H & _); exact H).
  destruct H as (Hlog & Hnew & Hact & sd & rest & cur & log & Hs & _ & Hd).
  unfold latest. rewrite Hlog. cbn [hd_error].
  repeat split; try assumption.
  exists sd. rewrite Hs. auto.
Qed.

Lemma empty_tables_are_errors_witness :
  fst (POST (mkStore [] [initial_record] []))
  = Failed "Failed to fetch sensor data"
  /\ motor_control
       (snd (POST (mkStore [sensor_of (mkReading 18 20 25 60 0)] [] []))) = [].
Proof.
  destruct (empty_tables_are_errors (mkStore [] [initial_record] []))
    as (Hs & _).
  destruct (empty_tables_are_errors
              (mkStore [sensor_of (mkReading 18 20 25 60 0)] [] []))
    as (_ & Hm).
  split; [apply Hs; reflexivity | apply Hm; reflexivity].
Defined.

(** A store whose newest record already carries the decision for its newest
    reading. *)
Lemma settled_stays (s : Store) (sd : SensorData) (cur : MotorRecord) :
  hd_error (sensor_readings s) = Some sd -> latest s = Some cur ->
  determineMotorAction sd = status cur ->
  forall n, motor_control (auto_control_runs n s) = motor_control s.
Proof.
  intros Hsd Hcur Heq n. revert s Hsd Hcur.
  induction n as [| n IH]; intros s Hsd Hcur; [reflexivity |].
  cbn [auto_control_runs].
  destruct (POST_tables s) as (Hsens & Hlog).
  assert (H : motor_control (snd (POST s)) = motor_control s).
  { destruct Hlog as [H | (sd' & rest & cur' & log & why & Hs & Hm & _ & Hne & _)];
      [exact H |].
    unfold latest in Hcur. rewrite Hs in Hsd. rewrite Hm in Hcur.
    cbn in Hsd, Hcur. congruence. }
  rewrite IH; [exact H | now rewrite Hsens | unfold latest in *; now rewrite H].
Qed.

(** X5: however many automatic-control requests run in a row over the same
    readings, and whichever queries fail, they append at most one record
    between them, in front of the records that were there. *)
Theorem polls_append_at_most_one (n : nat) (s : Store) :
  motor_control (auto_control_runs n s) = motor_control s
  \/ exists new, motor_control (auto_control_runs n s)
                 = new :: motor_control s.
Proof.
  revert s. induction n as [| n IH]; intros s; [now left |].
  cbn [auto_control_runs].
  destruct (POST_tables s)
    as (Hsens & [H | (sd & rest & cur & log & why & Hs & Hm & _ & _ & _ & H)]).
  - destruct (IH (snd (POST s))) as [E | [new E]]; rewrite E, H; eauto.
  - right. exists (system_record (determineMotorAction sd) why).
    rewrite <- H. apply settled_stays
      with (sd := sd) (cur := system_record (determineMotorAction sd) why).
    + now rewrite Hsens, Hs.
    + unfold latest. now rewrite H.
    + reflexivity.
Qed.

(** X6: in automatic mode, with a complete reading and no failing query, one
    request leaves a newest record in automatic mode whose status is the
    decision, and every further request leaves the store as the first did. *)
Theorem status_follows_decision (r : Reading) (rest : list SensorData)
    (cur : MotorRecord) (log : list MotorRecord) :
  mode cur = "automatic" ->
  let s := mkStore (sensor_of r :: rest) (cur :: log) [] in
  (exists rec, latest (snd (POST s)) = Some rec
               /\ status rec = determineMotorAction (sensor_of r)
               /\ mode rec = "automatic")
  /\ forall n, auto_control_runs (S n) s = snd (POST s).
Proof.
  intros Hmode s.
  assert (Hpost : exists rec log',
            snd (POST s) = mkStore (sensor_of r :: rest) (rec :: log') []
            /\ status rec = determineMotorAction (sensor_of r)
            /\ mode rec = "automatic").
  { unfold s. rewrite POST_no_fault by exact Hmode.
    destruct (Bool.eqb (determineMotorAction (sensor_of r)) (status cur))
      eqn:E; cbn [negb].
    - apply eqb_prop in E. exists cur, log. auto.
    - destruct (reason_of_complete r (determineMotorAction (sensor_of r)))
        as [why ->].
      eexists; eexists. split; [reflexivity |]. split; reflexivity. }
  destruct Hpost as (rec & log' & Hs1 & Hst & Hm).
  split.
  - exists rec. unfold latest. rewrite Hs1. auto.
  - intros n. cbn [auto_control_runs]. rewrite Hs1.
    induction n as [| n IH]; [reflexivity |].
    cbn [auto_control_runs]. rewrite POST_no_fault by exact Hm.
    rewrite Hst, eqb_reflx. cbn [negb snd]. exact IH.
Qed.

Lemma status_follows_decision_witness :
  auto_control_runs 3 dry_store = snd (POST dry_store)
  /\ exists rec, latest (snd (POST dry_store)) = Some rec /\ status rec = true.
Proof.
  destruct (status_follows_decision (mkReading 18 20 25 60 0) []
              initial_record [])
    as ((rec & Hrec & Hst & _) & Hruns); [reflexivity |].
  split; [apply (Hruns 2%nat) |].
  exists rec. split; [exact Hrec | exact Hst].
Defined.

End RequestFacts.

(** ** The motor route *)

Module MotorRouteFacts.

Lemma includes_spec (a b : string) (j : json) (m : string) :
  MotorRoute.includes a b j = Some m -> j = JString m /\ (m = a \/ m = b).
Proof.
  unfold MotorRoute.includes. destruct j as [| | ? | ? | str]; try discriminate.
  destruct (str =? a)%string eqn:Ea; cbn [orb].
  - intros [= <-]. apply String.eqb_eq in Ea. auto.
  - destruct (str =? b)%string eqn:Eb; [| discriminate].
    intros [= <-]. apply String.eqb_eq in Eb. auto.
Qed.

Lemma includes_complete (a b : string) (m : string) :
  m = a \/ m = b -> MotorRoute.includes a b (JString m) = Some m.
Proof.
  unfold MotorRoute.includes. intros [-> | ->].
  - now rewrite String.eqb_refl.
  - rewrite String.eqb_refl. now rewrite orb_true_r.
Qed.

(** The motor route, seen from the two tables. *)
Lemma command_tables (body : option MotorRoute.Request) (s : Store) :
  sensor_readings (snd (MotorRoute.POST body s)) = sensor_readings s
  /\ (motor_control (snd (MotorRoute.POST body s)) = motor_control s
      \/ exists row, valid_record row
                     /\ motor_control (snd (MotorRoute.POST body s))
                        = row :: motor_control s).
Proof.
  unfold MotorRoute.POST. destruct body as [rq |]; [| cbn; auto].
  destruct (MotorRoute.rq_status rq) as [| | st | |]; try (cbn; auto).
  destruct (MotorRoute.includes "automatic" "manual" (MotorRoute.rq_mode rq))
    as [m |] eqn:Em; [| cbn; auto].
  destruct (MotorRoute.includes "system" "user" (MotorRoute.rq_changed_by rq))
    as [c |] eqn:Ec; [| cbn; auto].
  apply includes_spec in Em, Ec. destruct Em as [_ Hm], Ec as [_ Hc].
  destruct (AutoControlFacts.insert_motor_spec
              {| status := st; mode := m;
                 reason := if MotorRoute.truthy (MotorRoute.rq_reason rq)
                           then Supplied (MotorRoute.rq_reason rq)
                           else ViaMode st m;
                 changed_by := c |} s) as (Hs & Hl).
  destruct (insert_motor _ s) as [[data |] s']; cbn [fst snd] in *;
    (split; [exact Hs |]);
    (destruct Hl as [Hl | Hl]; [now left | right]);
    (eexists; split; [| exact Hl]); split; assumption.
Qed.

(** X8: the motor route validates a command before it writes.  A command is
    answered by success only if its status is a boolean, its mode automatic
    or manual and its author system or user, and then exactly the record of
    the command is put in front of the log; a rejected command leaves the
    store as it is, and a failed one leaves the log as it is. *)
Theorem command_is_validated (body : option MotorRoute.Request) (s : Store) :
  match fst (MotorRoute.POST body s) with
  | MotorRoute.Success data =>
      (exists rq, body = Some rq
                  /\ MotorRoute.rq_status rq = JBool (status data)
                  /\ MotorRoute.rq_mode rq = JString (mode data)
                  /\ MotorRoute.rq_changed_by rq = JString (changed_by data)
                  /\ reason data
                     = if MotorRoute.truthy (MotorRoute.rq_reason rq)
                       then Supplied (MotorRoute.rq_reason rq)
                       else ViaMode (status data) (mode data))
      /\ valid_record data
      /\ motor_control (snd (MotorRoute.POST body s)) = data :: motor_control s
      /\ sensor_readings (snd (MotorRoute.POST body s)) = sensor_readings s
  | MotorRoute.BadRequest _ => snd (MotorRoute.POST body s) = s
  | MotorRoute.Failed _ =>
      motor_control (snd (MotorRoute.POST body s)) = motor_control s
      /\ sensor_readings (snd (MotorRoute.POST body s)) = sensor_readings s
  end.
Proof.
  unfold MotorRoute.POST. destruct body as [rq |]; [| cbn; auto].
  destruct (MotorRoute.rq_status rq) as [| | st | |] eqn:Est;
    try (cbn; reflexivity).
  destruct (MotorRoute.includes "automatic" "manual" (MotorRoute.rq_mode rq))
    as [m |] eqn:Em; [| cbn; reflexivity].
  destruct (MotorRoute.includes "system" "user" (MotorRoute.rq_changed_by rq))
    as [c |] eqn:Ec; [| cbn; reflexivity].
  apply includes_spec in Em, Ec. destruct Em as [Em Hm], Ec as [Ec Hc].
  unfold insert_motor.
  destruct (AutoControlFacts.next_fault_tables s) as [Hs Hl].
  destruct (next_fault s) as [[|] s']; cbn [fst snd motor_control sensor_readings] in *.
  - auto.
  - rewrite Hs, Hl. repeat split; try assumption.
    exists rq. cbn [status mode changed_by reason]. auto.
Qed.

(** The status route writes to neither table. *)
Lemma status_query_tables (s : Store) :
  sensor_readings (snd (MotorStatus.GET s)) = sensor_readings s
  /\ motor_control (snd (MotorStatus.GET s)) = motor_control s.
Proof.
  unfold MotorStatus.GET.
  destruct (AutoControlFacts.select_motor_spec s) as (Hs & Hm & _).
  destruct (select_latest motor_control s) as [[data |] s1]; cbn [fst snd] in *;
    auto.
Qed.



(** One request of any kind, seen from the two tables. *)
Lemma serve_step (s : Store) (rq : Request) :
  sensor_readings (serve s rq) = sensor_readings s
  /\ (motor_control (serve s rq) = motor_control s
      \/ exists row, valid_record row
                     /\ motor_control (serve s rq) = row :: motor_control s).
Proof.
  destruct rq as [| body |]; cbn [serve].
  - destruct (AutoControlFacts.POST_tables s)
      as (Hs & [H | (sd & rest & cur & log & why & _ & _ & _ & _ & _ & H)]);
      (split; [exact Hs |]); [now left | right].
    eexists. split; [| exact H]. split; cbn; auto.
  - exact (command_tables body s).
  - destruct (status_query_tables s) as (Hs & Hl). auto.
Qed.

(** X7: the log is append-only and well-formed.  Whatever requests are
    served, in whatever order and with whichever queries failing, the
    records that were in the log stay, in their order, behind at most one
    new record per request; the readings are not touched; and if every
    record had a mode and an author of the schema, every record still has. *)
Theorem log_is_append_only (rqs : list Request) (s : Store) :
  sensor_readings (serve_all rqs s) = sensor_readings s
  /\ (exists new,
        motor_control (serve_all rqs s) = (new ++ motor_control s)%list
        /\ (List.length new <= List.length rqs)%nat
        /\ Forall valid_record new)
  /\ (Forall valid_record (motor_control s) ->
      Forall valid_record (motor_control (serve_all rqs s))).
Proof.
  assert (H : sensor_readings (serve_all rqs s) = sensor_readings s
              /\ exists new,
                   motor_control (serve_all rqs s)
                   = (new ++ motor_control s)%list
                   /\ (List.length new <= List.length rqs)%nat
                   /\ Forall valid_record new).
  { revert s. induction rqs as [| rq rqs IH]; intros s.
    - split; [reflexivity |]. exists []. cbn. auto.
    - cbn [serve_all fold_left]. fold (serve_all rqs (serve s rq)).
      destruct (IH (serve s rq)) as (Hs & new & Hl & Hlen & Hv).
      destruct (serve_step s rq) as (Hs' & [E | (row & Hrow & E)]).
      + split; [congruence |]. exists new. rewrite Hl, E.
        cbn [List.length]. auto.
      + split; [congruence |]. exists (new ++ [row])%list.
        rewrite Hl, E, <- app_assoc. split; [reflexivity |].
        split.
        * rewrite length_app. cbn. lia.
        * apply Forall_app. auto. }
  destruct H as (Hs & new & Hl & Hlen & Hv).
  split; [exact Hs |]. split; [eauto |].
  intros Hold. rewrite Hl. apply Forall_app. auto.
Qed.

Lemma log_is_append_only_witness :
  Forall valid_record
    (motor_control
       (serve_all [AutoControlPoll;
                   MotorCommand (Some (manual_command false JNull));
                   MotorStatusQuery; AutoControlPoll]
          dry_store)).
Proof.
  apply (log_is_append_only
           [AutoControlPoll; MotorCommand (Some (manual_command false JNull));
            MotorStatusQuery; AutoControlPoll] dry_store).
  repeat constructor; cbn; auto.
Defined.

End MotorRouteFacts.

(** ** The motor panel *)

Module PanelFacts.
Import Panel.

(** The record a toggle writes for the status the panel shows. *)
Lemma toggle_no_fault (p : State) (s : Store) (current : MotorRecord) :
  motorStatus p = Some current -> isUpdating p = false -> faults s = [] ->
  let new :=
    {| status := negb (status current);
       mode := "manual";
       reason := Supplied (MotorRoute.rq_reason (toggle_body current));
       changed_by := "user" |} in
  toggleMotor p s
  = ({| motorStatus := Some new; error := None; isUpdating := false |},
     {| sensor_readings := sensor_readings s;
        motor_control := new :: motor_control s;
        faults := [] |}).
Proof.
  intros Hp Hu Hf. unfold toggleMotor. rewrite Hp, Hu.
  unfold MotorRoute.POST, toggle_body, insert_motor, next_fault.
  cbn [MotorRoute.rq_status MotorRoute.rq_mode MotorRoute.rq_reason
       MotorRoute.rq_changed_by MotorRoute.includes].
  rewrite Hf. cbn [String.eqb Ascii.eqb Bool.eqb orb].
  destruct (status current); cbn; rewrite Hf; reflexivity.
Qed.

(** X10: a toggle of the panel, with no failing query, appends a manual
    record by the user whose status is the opposite of the one the panel
    shows, and the panel then shows that record; from then on no number of
    automatic-control requests changes the log; and a second toggle shows
    the first status again.  While an update runs, or before any status was
    fetched, a toggle does nothing. *)
Theorem toggle_takes_manual_control (p : State) (s : Store)
    (current : MotorRecord) :
  motorStatus p = Some current -> isUpdating p = false -> faults s = [] ->
  (exists new,
     motorStatus (fst (toggleMotor p s)) = Some new
     /\ error (fst (toggleMotor p s)) = None
     /\ latest (snd (toggleMotor p s)) = Some new
     /\ motor_control (snd (toggleMotor p s)) = new :: motor_control s
     /\ status new = negb (status current)
     /\ mode new = "manual" /\ changed_by new = "user")
  /\ (forall n,
        motor_control (auto_control_runs n (snd (toggleMotor p s)))
        = motor_control (snd (toggleMotor p s)))
  /\ (exists again,
        motorStatus
          (fst (toggleMotor (fst (toggleMotor p s)) (snd (toggleMotor p s))))
        = Some again
        /\ status again = status current)
  /\ (forall q : State,
        motorStatus q = None \/ isUpdating q = true ->
        toggleMotor q s = (q, s)).
Proof.
  intros Hp Hu Hf. rewrite (toggle_no_fault p s current Hp Hu Hf).
  cbn [fst snd motorStatus error motor_control].
  split; [| split; [| split]].
  - eexists. unfold latest. cbn. repeat split; reflexivity.
  - intros n. eapply AutoControlFacts.not_automatic_runs.
    + unfold latest. cbn. reflexivity.
    + cbn. discriminate.
  - erewrite toggle_no_fault; [| reflexivity | reflexivity | reflexivity].
    cbn. eexists. split; [reflexivity |]. cbn. apply negb_involutive.
  - intros q [Hq | Hq]; unfold toggleMotor; rewrite Hq; [reflexivity |].
    destruct (motorStatus q); reflexivity.
Qed.

Lemma toggle_takes_manual_control_witness :
  exists new,
    latest (snd (toggleMotor (mkState (Some initial_record) None false)
                   dry_store)) = Some new
    /\ status new = true /\ mode new = "manual".
Proof.
  destruct (toggle_takes_manual_control
              (mkState (Some initial_record) None false) dry_store
              initial_record)
    as ((new & _ & _ & Hl & _ & Hst & Hm & _) & _);
    [reflexivity | reflexivity | reflexivity |].
  exists new. split; [exact Hl |]. split; [exact Hst | exact Hm].
Defined.

(** X11: the switch to automatic mode, with a complete newest reading and no
    failing query, keeps the status the panel shows in its own record and
    then lets the policy decide at once: afterwards the newest record is in
    automatic mode and its status is the decision for the reading, and a
    refresh of the panel shows that record. *)
Theorem switch_hands_over_to_policy (p : State) (s : Store)
    (current : MotorRecord) (r : Reading) (rest : list SensorData) :
  motorStatus p = Some current -> isUpdating p = false -> faults s = [] ->
  sensor_readings s = sensor_of r :: rest ->
  let p' := fst (switchToAutomatic p s) in
  let s' := snd (switchToAutomatic p s) in
  motorStatus p'
  = Some {| status := status current; mode := "automatic";
            reason := Supplied (JString "Switched to automatic mode");
            changed_by := "user" |}
  /\ (exists rec,
        latest s' = Some rec
        /\ mode rec = "automatic"
        /\ status rec = AutoControl.determineMotorAction (sensor_of r)
        /\ motorStatus (fst (fetchMotorStatus p' s')) = Some rec
        /\ error (fst (fetchMotorStatus p' s')) = None)
  /\ (List.length (motor_control s') <= 2 + List.length (motor_control s))%nat.
Proof.
  intros Hp Hu Hf Hs. destruct s as [sr mc fl].
  cbn [sensor_readings faults] in *. subst sr fl.
  unfold switchToAutomatic. rewrite Hp, Hu.
  unfold MotorRoute.POST, automatic_body, insert_motor, next_fault.
  cbn [MotorRoute.rq_status MotorRoute.rq_mode MotorRoute.rq_reason
       MotorRoute.rq_changed_by MotorRoute.includes MotorRoute.truthy
       faults sensor_readings motor_control].
  cbn [String.eqb Ascii.eqb Bool.eqb orb negb].
  set (switched := {| status := status current; mode := "automatic";
                      reason := Supplied (JString "Switched to automatic mode");
                      changed_by := "user" |}).
  rewrite (AutoControlFacts.POST_no_fault (sensor_of r) rest switched mc)
    by reflexivity.
  destruct (Bool.eqb (AutoControl.determineMotorAction (sensor_of r))
              (status switched)) eqn:E; cbn [negb].
  - apply eqb_prop in E. cbn [fst snd motorStatus].
    split; [reflexivity |]. split.
    + exists switched. unfold latest, fetchMotorStatus, MotorStatus.GET,
        select_latest, next_fault. cbn. auto.
    + cbn. lia.
  - destruct (AutoControlFacts.reason_of_complete r
                (AutoControl.determineMotorAction (sensor_of r)))
      as [why ->].
    cbn [fst snd motorStatus].
    split; [reflexivity |]. split.
    + eexists. unfold latest, fetchMotorStatus, MotorStatus.GET,
        select_latest, next_fault. cbn. repeat split; reflexivity.
    + cbn. lia.
Qed.

Lemma switch_hands_over_to_policy_witness :
  exists rec,
    latest (snd (switchToAutomatic (mkState (Some manual_record) None false)
                   manual_store)) = Some rec
    /\ mode rec = "automatic" /\ status rec = false.
Proof.
  destruct (switch_hands_over_to_policy
              (mkState (Some manual_record) None false) manual_store
              manual_record (mkReading 70 20 25 60 5) [])
    as (_ & (rec & Hl & Hm & Hst & _) & _);
    [reflexivity | reflexivity | reflexivity | reflexivity |].
  exists rec. split; [exact Hl |]. split; [exact Hm | exact Hst].
Defined.

End PanelFacts.

(** ** The browser client *)

Module ClientFacts.
Import Client.

(** X12: the client's [getMotorStatus] always returns a status.  It returns
    the newest record of a non-empty log without writing; it seeds an empty
    log with one record (motor off, automatic mode, by the system) and
    returns it; when a query fails it returns the default status (motor off,
    automatic mode) and writes nothing.  It never touches the readings, and
    with no failing query the status it returns is the newest record of the
    log it leaves. *)
Theorem client_status_seeds_empty_log (s : Store) :
  sensor_readings (snd (getMotorStatus s)) = sensor_readings s
  /\ (motor_control (snd (getMotorStatus s)) = motor_control s
      /\ (Some (fst (getMotorStatus s)) = latest s
          \/ fst (getMotorStatus s) = default_status)
      \/ motor_control s = []
         /\ motor_control (snd (getMotorStatus s)) = [seeded_record]
         /\ fst (getMotorStatus s) = seeded_record)
  /\ (faults s = [] -> Some (fst (getMotorStatus s))
                       = latest (snd (getMotorStatus s)))
  /\ (faults s = [] -> motor_control s <> [] -> getMotorStatus s
                       = (hd default_status (motor_control s), s)).
Proof.
  destruct s as [sr mc fl].
  unfold getMotorStatus, select_newest, updateMotorStatus, insert_motor,
    next_fault, latest.
  cbn [faults sensor_readings motor_control].
  split; [| split; [| split]].
  - destruct fl as [| [|] fl]; cbn [fst snd sensor_readings]; try reflexivity.
    + destruct mc; reflexivity.
    + destruct mc; cbn [firstn]; [| reflexivity].
      destruct fl as [| [|] fl]; reflexivity.
  - destruct fl as [| [|] fl]; cbn [fst snd motor_control]; auto.
    + destruct mc as [| cur log]; cbn [firstn fst snd motor_control hd_error];
        [right; auto | left; auto].
    + destruct mc as [| cur log]; cbn [firstn]; [| cbn; auto].
      destruct fl as [| [|] fl]; cbn; auto.
  - intros ->. destruct mc; reflexivity.
  - intros -> Hne. destruct mc; [contradiction | reflexivity].
Qed.

Lemma client_status_seeds_empty_log_witness :
  getMotorStatus (mkStore [] [] [])
  = (seeded_record, mkStore [] [seeded_record] [])
  /\ getMotorStatus dry_store = (initial_record, dry_store).
Proof.
  destruct (client_status_seeds_empty_log dry_store)
    as (_ & _ & _ & Hnonempty).
  split; [reflexivity |].
  apply Hnonempty; [reflexivity | discriminate].
Defined.

End ClientFacts.

(** ** The shape of the sub-score *)

Module ScoreShape.
Import Crop CropFacts.









End ScoreShape.

(** ** The overall score and the list of recommendations *)

Module RecommendationFacts.
Import Crop CropFacts.




Lemma recommendations_length (sensorData : SensorData) :
  List.length (generateCropRecommendations sensorData) = 5%nat.
Proof.
  unfold generateCropRecommendations.
  rewrite <- (Permutation_length
                (SortFacts.Array_sort_perm by_score_descending
                   (pushed_recommendations sensorData))).
  reflexivity.
Qed.

(** X16: whatever the sensor data, also with fields missing, the route
    recommends the five crops, each once. *)
Theorem five_crops_each_once (sensorData : SensorData) :
  Permutation
    (map crop_type (generateCropRecommendations sensorData))
    ["Tomatoes"; "Lettuce"; "Peppers"; "Spinach"; "Carrots"]
  /\ List.length (generateCropRecommendations sensorData) = 5%nat
  /\ Permutation (pushed_recommendations sensorData)
       (generateCropRecommendations sensorData).
Proof.
  pose proof (SortFacts.Array_sort_perm by_score_descending
                (pushed_recommendations sensorData)) as H.
  fold (generateCropRecommendations sensorData) in H.
  split; [| split; [| exact H]].
  - apply Permutation_sym.
    change ["Tomatoes"; "Lettuce"; "Peppers"; "Spinach"; "Carrots"]
      with (map crop_type (pushed_recommendations sensorData)).
    now apply Permutation_map.
  - rewrite <- (Permutation_length H). reflexivity.
Qed.

(** *** Missing fields *)







(** *** The route *)

Lemma confidence_of_score (z : Z) :
  (20 <= z <= 100)%Z ->
  exists q, (JS.of_Z z / 100)%js = JS.Num q /\ (1 # 5 <= q)%Q /\ (q <= 1)%Q.
Proof.
  intros [Hlo Hhi]. unfold JS.of_Z. cbn [JS.div].
  change (Qeq_bool 100 0) with false. cbv iota.
  eexists. split; [reflexivity |].
  rewrite Zle_Qle in Hlo, Hhi.
  change (inject_Z 20) with 20%Q in Hlo. change (inject_Z 100) with 100%Q in Hhi.
  change (inject_Z z / 100)%Q with (inject_Z z * (1 # 100))%Q. lra.
Qed.

(** X18: the recommendation route answers an error only when the reading
    cannot be fetched.  Otherwise it answers with the recommendations for the
    newest reading whether or not they could be stored; it stores all five
    rows or none; it leaves the readings and the motor log alone; and for a
    complete reading each stored confidence lies between 0.2 and 1. *)
Theorem recommendations_survive_storage (s : Store)
    (stored : list CropRoute.Row) :
  let response := fst (fst (CropRoute.GET s stored)) in
  let s' := snd (fst (CropRoute.GET s stored)) in
  let stored' := snd (CropRoute.GET s stored) in
  sensor_readings s' = sensor_readings s
  /\ motor_control s' = motor_control s
  /\ match response with
     | CropRoute.Failed err =>
         err = "Failed to fetch sensor data" /\ stored' = stored
     | CropRoute.Recommendations recs sd =>
         hd_error (sensor_readings s) = Some sd
         /\ recs = generateCropRecommendations sd
         /\ (stored' = stored
             \/ stored' = (CropRoute.rows_of sd recs ++ stored)%list
                /\ List.length stored' = (5 + List.length stored)%nat)
         /\ (forall r, sd = sensor_of r ->
               Forall (fun row =>
                         exists q, CropRoute.confidence_score row = JS.Num q
                                   /\ (1 # 5 <= q)%Q /\ (q <= 1)%Q)
                      (CropRoute.rows_of sd recs))
     end.
Proof.
  unfold CropRoute.GET.
  destruct (AutoControlFacts.select_sensor_spec s) as (Hs1 & Hm1 & H1).
  destruct (select_latest sensor_readings s) as [sensor s1].
  cbn [fst snd] in *.
  destruct H1 as [-> | (sd & rest & Hsd & ->)]; [cbn [fst snd]; auto |].
  destruct (AutoControlFacts.next_fault_tables s1) as [Hs2 Hm2].
  destruct (next_fault s1) as [insertError s2]. cbn [fst snd] in *.
  split; [congruence |]. split; [congruence |].
  split; [now rewrite Hsd |]. split; [reflexivity |]. split.
  - destruct insertError; [now left | right]. split; [reflexivity |].
    rewrite length_app. unfold CropRoute.rows_of. rewrite length_map.
    rewrite recommendations_length. reflexivity.
  - intros r ->. unfold CropRoute.rows_of. apply Forall_map.
    cbn [CropRoute.confidence_score].
    eapply Permutation_Forall.
    + apply SortFacts.Array_sort_perm.
    + eapply Forall_impl; [| apply pushed_scores].
      intros rec (z & -> & Hz). now apply confidence_of_score.
Qed.

Lemma recommendations_survive_storage_witness :
  exists recs,
    fst (fst (CropRoute.GET dry_store [])) 
    = CropRoute.Recommendations recs (sensor_of (mkReading 18 20 25 60 0))
    /\ Forall (fun row =>
                 exists q, CropRoute.confidence_score row = JS.Num q
                           /\ (1 # 5 <= q)%Q /\ (q <= 1)%Q)
              (CropRoute.rows_of (sensor_of (mkReading 18 20 25 60 0)) recs).
Proof.
  pose proof (recommendations_survive_storage dry_store []) as H.
  cbv zeta in H. destruct H as (_ & _ & H).
  destruct (fst (fst (CropRoute.GET dry_store []))) as [err | recs sd] eqn:E;
    [vm_compute in E; discriminate E |].
  destruct H as (Hsd & _ & _ & Hconf).
  injection Hsd as <-. exists recs. split; [reflexivity |].
  apply (Hconf (mkReading 18 20 25 60 0)). reflexivity.
Defined.

End RecommendationFacts.

(** ** The progress bar of the sensor card *)

Module CardFacts.
Import SensorCard.



End CardFacts.
